(** * A to-do service and a tool-calling chat client, embedded in Rocq

    The repository holds two programs:

    - [main.py], an in-memory FastAPI service for tasks with nested
      subtasks (handlers [create_task], [add_subtask], [update_subtask]);
    - [gcal_mcp_client.py], a command-line chat loop that lets a language
      model call the tools of an MCP server ([_convert_mcp_tools_to_groq],
      [_flatten_tool_result], [run_client] and the script entry point).

    Part I gives the definitions, function by function, in the order of the
    sources.  Part II states and proves the properties. *)

From Stdlib Require Import ZArith Ascii String List Bool Lia.
From stdpp Require Import base option list gmap strings.

Local Open Scope string_scope.
Local Open Scope Z_scope.

(** * Part I.  Definitions *)

(** ** The to-do service ([main.py]) *)

Module Todo.

(** *** Pydantic models *)

(** [SubtaskCreate] (= [SubtaskBase]): the request body of a new subtask. *)
Record SubtaskCreate := mkSubtaskCreate {
  sc_title : string;
  sc_allocated_time : Z;
  sc_done : bool
}.

(** [Subtask]: a stored subtask, [SubtaskBase] plus its [id]. *)
Record Subtask := mkSubtask {
  sub_id : Z;
  sub_title : string;
  sub_allocated_time : Z;
  sub_done : bool
}.

(** [TaskCreate]: the request body of [POST /tasks]. *)
Record TaskCreate := mkTaskCreate {
  tc_title : string;
  tc_description : option string;
  tc_subtasks : list SubtaskCreate
}.

(** [Task]: a stored task. *)
Record Task := mkTask {
  task_id : Z;
  task_title : string;
  task_description : option string;
  task_done : bool;
  task_subtasks : list Subtask
}.

(** [SubtaskUpdate]: the request body of the [PATCH] endpoint; both fields
    are optional. *)
Record SubtaskUpdate := mkSubtaskUpdate {
  su_title : option string;
  su_done : option bool
}.

(** *** The in-memory store

    The three module-level globals [TASKS], [_task_id_seq] and
    [_subtask_id_seq], gathered into one state that every handler threads. *)
Record Store := mkStore {
  TASKS : gmap Z Task;
  task_id_seq : Z;
  subtask_id_seq : Z
}.

(** The store of a freshly started service. *)
Definition empty_store : Store :=
  {| TASKS := ∅; task_id_seq := 0; subtask_id_seq := 0 |}.

(** [_next_task_id] (lines 70-73): bump the counter, return the new
    value. *)
Definition _next_task_id (st : Store) : Z * Store :=
  let n := task_id_seq st + 1 in
  (n, {| TASKS := TASKS st; task_id_seq := n; subtask_id_seq := subtask_id_seq st |}).

(** [_next_subtask_id] (lines 76-79): likewise for subtasks. *)
Definition _next_subtask_id (st : Store) : Z * Store :=
  let n := subtask_id_seq st + 1 in
  (n, {| TASKS := TASKS st; task_id_seq := task_id_seq st; subtask_id_seq := n |}).

(** [TASKS[task_id] = task]. *)
Definition store_task (tid : Z) (t : Task) (st : Store) : Store :=
  {| TASKS := <[tid := t]> (TASKS st);
     task_id_seq := task_id_seq st;
     subtask_id_seq := subtask_id_seq st |}.

(** What a handler produces: a response body, or [HTTPException]. *)
Inductive response (A : Type) :=
  | Ok (body : A)
  | HTTPException (status_code : Z) (detail : string).
Arguments Ok {A} body.
Arguments HTTPException {A} status_code detail.

(** [Subtask(id=..., **st.model_dump())]. *)
Definition make_subtask (i : Z) (sc : SubtaskCreate) : Subtask :=
  {| sub_id := i;
     sub_title := sc_title sc;
     sub_allocated_time := sc_allocated_time sc;
     sub_done := sc_done sc |}.

(** The list comprehension of [create_task]: one fresh id per payload
    subtask, drawn left to right. *)
Fixpoint build_subtasks (scs : list SubtaskCreate) (st : Store)
  : list Subtask * Store :=
  match scs with
  | [] => ([], st)
  | sc :: rest =>
      let '(i, st1) := _next_subtask_id st in
      let '(subs, st2) := build_subtasks rest st1 in
      (make_subtask i sc :: subs, st2)
  end.

(** [len(subs) > 0 and all(s.done for s in subs)]. *)
Definition all_done (subs : list Subtask) : bool :=
  (0 <? Z.of_nat (length subs)) && forallb sub_done subs.

(** [create_task] (lines 101-119). *)
Definition create_task (payload : TaskCreate) (st : Store) : Task * Store :=
  let '(tid, st1) := _next_task_id st in
  let '(subs, st2) := build_subtasks (tc_subtasks payload) st1 in
  let task :=
    {| task_id := tid;
       task_title := tc_title payload;
       task_description := tc_description payload;
       task_done := all_done subs;
       task_subtasks := subs |} in
  (task, store_task tid task st2).

(** A task after [task.subtasks] has been changed and [task.done]
    recomputed from it. *)
Definition with_subtasks (t : Task) (subs : list Subtask) : Task :=
  {| task_id := task_id t;
     task_title := task_title t;
     task_description := task_description t;
     task_done := all_done subs;
     task_subtasks := subs |}.

(** [add_subtask] (lines 129-139).  The id of the new subtask is drawn
    after the task has been found. *)
Definition add_subtask (tid : Z) (payload : SubtaskCreate) (st : Store)
  : response Task * Store :=
  match TASKS st !! tid with
  | None => (HTTPException 404 "Task not found", st)
  | Some task =>
      let '(i, st1) := _next_subtask_id st in
      let task' := with_subtasks task (task_subtasks task ++ [make_subtask i payload]) in
      (Ok task', store_task tid task' st1)
  end.

(** The two conditional assignments of [update_subtask] on the subtask
    found. *)
Definition apply_update (payload : SubtaskUpdate) (s : Subtask) : Subtask :=
  let s1 :=
    match su_title payload with
    | Some t => {| sub_id := sub_id s; sub_title := t;
                   sub_allocated_time := sub_allocated_time s;
                   sub_done := sub_done s |}
    | None => s
    end in
  match su_done payload with
  | Some d => {| sub_id := sub_id s1; sub_title := sub_title s1;
                 sub_allocated_time := sub_allocated_time s1;
                 sub_done := d |}
  | None => s1
  end.

(** [next((s for s in task.subtasks if s.id == subtask_id), None)]. *)
Definition find_subtask (sid : Z) (subs : list Subtask) : option Subtask :=
  List.find (fun s => sub_id s =? sid) subs.

(** The subtask found is an element of [task.subtasks], mutated in place:
    the first element with the id is the one that changes. *)
Fixpoint mutate_first (sid : Z) (f : Subtask -> Subtask) (subs : list Subtask)
  : list Subtask :=
  match subs with
  | [] => []
  | s :: rest =>
      if sub_id s =? sid then f s :: rest else s :: mutate_first sid f rest
  end.

(** [update_subtask] (lines 143-160). *)
Definition update_subtask (tid sid : Z) (payload : SubtaskUpdate) (st : Store)
  : response Task * Store :=
  match TASKS st !! tid with
  | None => (HTTPException 404 "Task not found", st)
  | Some task =>
      match find_subtask sid (task_subtasks task) with
      | None => (HTTPException 404 "Subtask not found", st)
      | Some _ =>
          let task' :=
            with_subtasks task
              (mutate_first sid (apply_update payload) (task_subtasks task)) in
          (Ok task', store_task tid task' st)
      end
  end.

(** The relation the comment on [Task.done] describes. *)
Definition done_consistent (t : Task) : Prop :=
  task_done t = true <->
  (task_subtasks t <> [] /\ forall s, In s (task_subtasks t) -> sub_done s = true).

(** *** Sample data

    A payload with two subtasks, one of them open, and the store of a
    fresh service after [create_task] on it: task 1 with subtasks 1 and
    2. *)
Definition sample_payload : TaskCreate :=
  {| tc_title := "release";
     tc_description := None;
     tc_subtasks := [mkSubtaskCreate "tag" 5 true; mkSubtaskCreate "announce" 10 false] |}.

Definition sample_store : Store := snd (create_task sample_payload empty_store).

End Todo.

(** ** Python strings

    A Python [str] is modelled as a [string] holding its UTF-8 bytes. *)

Module Py.

Definition code (c : ascii) : Z := Z.of_N (N_of_ascii c).
Definition chr (z : Z) : ascii := ascii_of_N (Z.to_N z).

(** [x or default] on an optional string: [None] and the empty string are
    both falsy. *)
Definition str_or (x : option string) (default : string) : string :=
  match x with
  | Some (String c r) => String c r
  | _ => default
  end.

(** One-byte whitespace of [str.isspace]: U+0009..U+000D, U+001C..U+001F
    and the space. *)
Definition space1 (c : ascii) : bool :=
  let n := code c in
  ((9 <=? n) && (n <=? 13)) || ((28 <=? n) && (n <=? 32)).

(** Two-byte whitespace: U+0085 and U+00A0. *)
Definition space2 (c1 c2 : ascii) : bool :=
  (code c1 =? 194) && ((code c2 =? 133) || (code c2 =? 160)).

(** Three-byte whitespace: U+1680, U+2000..U+200A, U+2028, U+2029, U+202F,
    U+205F and U+3000. *)
Definition space3 (c1 c2 c3 : ascii) : bool :=
  let '(a, b, c) := (code c1, code c2, code c3) in
  ((a =? 225) && (b =? 154) && (c =? 128))
  || ((a =? 226) && (b =? 128)
        && (((128 <=? c) && (c <=? 138)) || (c =? 168) || (c =? 169) || (c =? 175)))
  || ((a =? 226) && (b =? 129) && (c =? 159))
  || ((a =? 227) && (b =? 128) && (c =? 128)).

(** [str.lstrip()]. *)
Fixpoint lstrip (s : string) : string :=
  match s with
  | EmptyString => EmptyString
  | String c1 r1 =>
      if space1 c1 then lstrip r1 else
      match r1 with
      | EmptyString => s
      | String c2 r2 =>
          if space2 c1 c2 then lstrip r2 else
          match r2 with
          | EmptyString => s
          | String c3 r3 => if space3 c1 c2 c3 then lstrip r3 else s
          end
      end
  end.

(** The same scan on the reversed byte sequence, where the bytes of a
    multi-byte character come last byte first. *)
Fixpoint lstrip_rev (s : string) : string :=
  match s with
  | EmptyString => EmptyString
  | String c1 r1 =>
      if space1 c1 then lstrip_rev r1 else
      match r1 with
      | EmptyString => s
      | String c2 r2 =>
          if space2 c2 c1 then lstrip_rev r2 else
          match r2 with
          | EmptyString => s
          | String c3 r3 => if space3 c3 c2 c1 then lstrip_rev r3 else s
          end
      end
  end.

Definition rev_string (s : string) : string :=
  string_of_list_ascii (rev (list_ascii_of_string s)).

(** [str.rstrip()]. *)
Definition rstrip (s : string) : string :=
  rev_string (lstrip_rev (rev_string s)).

(** [str.strip()]. *)
Definition strip (s : string) : string := rstrip (lstrip s).

(** [str.lower()] on the letters A..Z.  Other bytes are kept: no
    character outside ASCII lowers to a string of ASCII letters only, so
    the comparison with ["quit"] and ["exit"] below is not affected. *)
Definition lower_char (c : ascii) : ascii :=
  let n := code c in
  if (65 <=? n) && (n <=? 90) then chr (n + 32) else c.

Fixpoint lower (s : string) : string :=
  match s with
  | EmptyString => EmptyString
  | String c r => String (lower_char c) (lower r)
  end.

(** [sep.join(parts)]. *)
Fixpoint join (sep : string) (parts : list string) : string :=
  match parts with
  | [] => ""
  | [p] => p
  | p :: rest => p ++ sep ++ join sep rest
  end.

(** Truthiness of a [str]. *)
Definition nonempty (s : string) : bool :=
  match s with EmptyString => false | _ => true end.

(** The line feed, ["\n"]. *)
Definition LF : string := String (chr 10) EmptyString.

(** A text between double quotes. *)
Definition quoted (s : string) : string :=
  String (chr 34) (s ++ String (chr 34) EmptyString).

(** [c * n]: the character [c], [n] times. *)
Fixpoint times (c : ascii) (n : nat) : string :=
  match n with
  | O => EmptyString
  | S k => String c (times c k)
  end.

(** *** Limits of the interpreter

    Two limits of the interpreter decide what [json.loads] does with a
    text.  The first is the room the recursion limit leaves the decoder:
    it enters containers nested [nesting_limit] deep and raises
    [RecursionError] at a deeper one.  The room is what is left of the
    recursion limit (1000 unless it is changed, and the program does not
    change it) where the program calls the decoder, a few dozen frames
    down; the model takes it to be at least 4, [4 + spare_room].  The
    second is [sys.get_int_max_str_digits()]: [int] raises [ValueError] on
    a literal with more digits; 0 stands for no limit, and no other value
    is below 640.  The decoder is the one of CPython 3.11. *)
Class Interpreter := {
  spare_room : nat;
  int_max_str_digits : nat
}.

Definition nesting_limit `{Interpreter} : nat := 4 + spare_room.

(** The limits a script meets at its top level under CPython 3.11 with its
    default settings. *)
Definition cpython_311 : Interpreter :=
  {| spare_room := 990; int_max_str_digits := 4300 |}.

(** *** Reading lines *)

(** A text made of ASCII whitespace only: tab, line feed, vertical tab,
    form feed, carriage return and space. *)
Definition blank (s : string) : Prop :=
  Forall (fun c => In (code c) [9; 10; 11; 12; 13; 32]) (list_ascii_of_string s).

(** The same character up to case: [c] is [d], or [d] is a lowercase
    letter and [c] is its uppercase. *)
Definition same_letter (c d : ascii) : Prop :=
  c = d \/ (97 <= code d <= 122 /\ code c = code d - 32).

(** The same word up to case. *)
Inductive caseless : string -> string -> Prop :=
  | caseless_empty : caseless EmptyString EmptyString
  | caseless_char c d s t :
      same_letter c d -> caseless s t -> caseless (String c s) (String d t).

End Py.

(** ** JSON values and [json.loads]

    The client hands the argument text of a tool call to [json.loads].
    The decoder below follows Python's [json] module in its default
    configuration: the four whitespace characters, the literals [null],
    [true], [false], [NaN], [Infinity] and [-Infinity], numbers, strings
    with escapes (control characters refused), arrays and objects, and
    nothing but whitespace after the value.  It reads the text from left to
    right and stops at the first failure, which is one of three:
    [json.JSONDecodeError] where the text is not JSON, [RecursionError]
    where the interpreter has no room left, and [ValueError] where an
    integer literal has more digits than the interpreter allows. *)

Module Json.

(** A decoded value.  An integer is a [Z]; a number with a fraction or an
    exponent (a Python [float]) is kept as its lexeme.  A [dict] is an
    association list in insertion order, without duplicate keys. *)
#[warnings="-register-all"] Inductive json :=
  | JNull
  | JBool (b : bool)
  | JInt (z : Z)
  | JFloat (lexeme : string)
  | JString (s : string)
  | JArray (elems : list json)
  | JObject (items : list (string * json)).

(** [d[k] = v] on a [dict]: an existing key keeps its position. *)
Fixpoint dict_set (k : string) (v : json) (items : list (string * json))
  : list (string * json) :=
  match items with
  | [] => [(k, v)]
  | (k', v') :: rest =>
      if String.eqb k k' then (k, v) :: rest else (k', v') :: dict_set k v rest
  end.

(** [isinstance(v, dict)]. *)
Definition is_dict (v : json) : bool :=
  match v with JObject _ => true | _ => false end.

(** *** Lexical analysis *)

(** A token.  An integer literal is its sign and its digits, a number
    with a fraction or an exponent its text, a word one of the six
    literals.  The last two end the tokens of a text: [TBadString] where a
    string is not closed or holds a character or an escape it may not,
    [TError] where no token starts. *)
Inductive token :=
  | TLBrace | TRBrace | TLBracket | TRBracket | TColon | TComma
  | TString (s : string)
  | TInt (negative : bool) (digits : string)
  | TFloat (lexeme : string)
  | TWord (w : string)
  | TBadString
  | TError.

Definition is_ws (c : ascii) : bool :=
  let n := Py.code c in (n =? 32) || (n =? 9) || (n =? 10) || (n =? 13).

Definition is_digit (c : ascii) : bool :=
  let n := Py.code c in (48 <=? n) && (n <=? 57).

Definition is_letter (c : ascii) : bool :=
  let n := Py.code c in
  ((65 <=? n) && (n <=? 90)) || ((97 <=? n) && (n <=? 122)).

(** Characters a number lexeme is made of. *)
Definition is_number_char (c : ascii) : bool :=
  let n := Py.code c in
  is_digit c || (n =? 45) || (n =? 43) || (n =? 46) || (n =? 101) || (n =? 69).

Definition hex_value (c : ascii) : option Z :=
  let n := Py.code c in
  if (48 <=? n) && (n <=? 57) then Some (n - 48)
  else if (97 <=? n) && (n <=? 102) then Some (n - 87)
  else if (65 <=? n) && (n <=? 70) then Some (n - 55)
  else None.

(** The four hex digits of a [\uXXXX] escape. *)
Definition hex4 (h1 h2 h3 h4 : ascii) : option Z :=
  match hex_value h1, hex_value h2, hex_value h3, hex_value h4 with
  | Some a, Some b, Some c, Some d => Some (((a * 16 + b) * 16 + c) * 16 + d)
  | _, _, _, _ => None
  end.

(** The UTF-8 bytes of a code point, first byte last. *)
Definition utf8_rev (cp : Z) : list ascii :=
  if cp <? 128 then [Py.chr cp]
  else if cp <? 2048 then
    [Py.chr (128 + cp mod 64); Py.chr (192 + cp / 64)]
  else if cp <? 65536 then
    [Py.chr (128 + cp mod 64); Py.chr (128 + (cp / 64) mod 64);
     Py.chr (224 + cp / 4096)]
  else
    [Py.chr (128 + cp mod 64); Py.chr (128 + (cp / 64) mod 64);
     Py.chr (128 + (cp / 4096) mod 64); Py.chr (240 + cp / 262144)].

Definition is_high_surrogate (cp : Z) : bool := (55296 <=? cp) && (cp <=? 56319).
Definition is_low_surrogate (cp : Z) : bool := (56320 <=? cp) && (cp <=? 57343).

(** The character a one-letter escape stands for. *)
Definition simple_escape (c : ascii) : option ascii :=
  let n := Py.code c in
  if n =? 34 then Some (Py.chr 34)
  else if n =? 92 then Some (Py.chr 92)
  else if n =? 47 then Some (Py.chr 47)
  else if n =? 98 then Some (Py.chr 8)
  else if n =? 102 then Some (Py.chr 12)
  else if n =? 110 then Some (Py.chr 10)
  else if n =? 114 then Some (Py.chr 13)
  else if n =? 116 then Some (Py.chr 9)
  else None.

Definition of_rev (acc : list ascii) : string :=
  string_of_list_ascii (rev acc).

(** What the lexer is in the middle of. *)
Inductive mode :=
  | MDefault
  | MString (acc : list ascii)
  | MNumber (acc : list ascii)
  | MWord (acc : list ascii).

(** What a character means where a token may start. *)
Inductive action :=
  | ASkip
  | AEmit (t : token)
  | AStart (m : mode)
  | AFail.

Definition dispatch (c : ascii) : action :=
  let n := Py.code c in
  if is_ws c then ASkip
  else if n =? 123 then AEmit TLBrace
  else if n =? 125 then AEmit TRBrace
  else if n =? 91 then AEmit TLBracket
  else if n =? 93 then AEmit TRBracket
  else if n =? 58 then AEmit TColon
  else if n =? 44 then AEmit TComma
  else if n =? 34 then AStart (MString [])
  else if is_digit c || (n =? 45) then AStart (MNumber [c])
  else if is_letter c then AStart (MWord [c])
  else AFail.

(** The longest prefix of digits, and what follows it. *)
Fixpoint span_digits (s : string) : string * string :=
  match s with
  | EmptyString => (EmptyString, EmptyString)
  | String c r =>
      if is_digit c then
        let '(ds, rest) := span_digits r in (String c ds, rest)
      else (EmptyString, s)
  end.

(** The fraction at the head of [s], a dot and at least one digit, and
    what follows it; the empty text when there is none. *)
Definition span_fraction (s : string) : string * string :=
  match s with
  | String p r =>
      if Py.code p =? 46 then
        let '(ds, rest) := span_digits r in
        if Py.nonempty ds then (String p ds, rest) else (EmptyString, s)
      else (EmptyString, s)
  | EmptyString => (EmptyString, s)
  end.

(** The exponent at the head of [s]: [e] or [E], an optional sign and at
    least one digit. *)
Definition span_exponent (s : string) : string * string :=
  match s with
  | String e r =>
      if (Py.code e =? 101) || (Py.code e =? 69) then
        let '(sign, r1) :=
          match r with
          | String g r' =>
              if (Py.code g =? 45) || (Py.code g =? 43)
              then (String g EmptyString, r') else (EmptyString, r)
          | EmptyString => (EmptyString, r)
          end in
        let '(ds, rest) := span_digits r1 in
        if Py.nonempty ds then (String e (sign ++ ds), rest) else (EmptyString, s)
      else (EmptyString, s)
  | EmptyString => (EmptyString, s)
  end.

(** The tokens of a run of number characters.  The decoder takes the
    longest prefix that is a number: an optional minus sign, then [0] or a
    digit from 1 to 9 with the digits after it, then an optional fraction,
    then an optional exponent.  What is left of the run cannot follow a
    number. *)
Definition number_tokens (run : string) : list token :=
  let '(neg, body) :=
    match run with
    | String c r => if Py.code c =? 45 then (true, r) else (false, run)
    | EmptyString => (false, run)
    end in
  match body with
  | EmptyString => [TError]
  | String d r =>
      if negb (is_digit d) then [TError] else
      let '(ip, rest) :=
        if Py.code d =? 48 then (String d EmptyString, r) else span_digits body in
      let '(frac, rest1) := span_fraction rest in
      let '(exp, rest2) := span_exponent rest1 in
      let number :=
        if Py.nonempty frac || Py.nonempty exp
        then TFloat ((if neg then "-" else "") ++ ip ++ frac ++ exp)
        else TInt neg ip in
      number :: (if Py.nonempty rest2 then [TError] else [])
  end.

(** [prefix p s]: what follows [p] in [s], when [s] starts with [p]. *)
Fixpoint strip_prefix (p s : string) : option string :=
  match p, s with
  | EmptyString, _ => Some s
  | String a p', String b s' =>
      if Ascii.eqb a b then strip_prefix p' s' else None
  | String _ _, EmptyString => None
  end.

Definition literals : list string :=
  ["null"; "true"; "false"; "NaN"; "Infinity"; "-Infinity"].

(** The tokens of a run of letters, with a minus sign before it or not.
    The decoder looks for a literal at its head, and what is left of the
    run cannot follow a value. *)
Fixpoint literal_tokens (candidates : list string) (run : string) : list token :=
  match candidates with
  | [] => [TError]
  | w :: more =>
      match strip_prefix w run with
      | Some rest => TWord w :: (if Py.nonempty rest then [TError] else [])
      | None => literal_tokens more run
      end
  end.

Definition word_tokens (run : string) : list token :=
  literal_tokens literals run.

(** The lexer: one pass over the text, structurally recursive on it.
    Accumulators hold the characters read so far, last one first.  The
    tokens come in the order of the text, and a [TError] ends them.
    [start] is what the character means where a token may start; it is
    computed only where it is used. *)
Fixpoint lex (m : mode) (s : string) {struct s} : list token :=
  match s with
  | EmptyString =>
      match m with
      | MDefault => []
      | MNumber acc => number_tokens (of_rev acc)
      | MWord acc => word_tokens (of_rev acc)
      | MString _ => [TBadString]
      end
  | String c r =>
      let start (_ : unit) :=
        match dispatch c with
        | ASkip => lex MDefault r
        | AEmit t => t :: lex MDefault r
        | AStart m' => lex m' r
        | AFail => [TError]
        end in
      match m with
      | MDefault => start tt
      | MNumber acc =>
          if is_number_char c then lex (MNumber (c :: acc)) r
          else if is_letter c then
            (* only [-Infinity] continues a sign with a letter *)
            match acc with
            | [sign] =>
                if Py.code sign =? 45 then lex (MWord [c; sign]) r
                else number_tokens (of_rev acc) ++ start tt
            | _ => number_tokens (of_rev acc) ++ start tt
            end
          else number_tokens (of_rev acc) ++ start tt
      | MWord acc =>
          if is_letter c then lex (MWord (c :: acc)) r
          else word_tokens (of_rev acc) ++ start tt
      | MString acc =>
          let n := Py.code c in
          if n =? 34 then TString (of_rev acc) :: lex MDefault r
          else if n <? 32 then [TBadString]
          else if n =? 92 then
            match r with
            | EmptyString => [TBadString]
            | String e r1 =>
                if Py.code e =? 117 then
                  match r1 with
                  | String h1 (String h2 (String h3 (String h4 r2))) =>
                      match hex4 h1 h2 h3 h4 with
                      | None => [TBadString]
                      | Some cp =>
                          let lone := lex (MString (utf8_rev cp ++ acc)) r2 in
                          if is_high_surrogate cp then
                            match r2 with
                            | String b (String u (String g1 (String g2
                                (String g3 (String g4 r3))))) =>
                                if (Py.code b =? 92) && (Py.code u =? 117) then
                                  match hex4 g1 g2 g3 g4 with
                                  | Some lo =>
                                      if is_low_surrogate lo then
                                        lex (MString
                                               (utf8_rev (65536 + (cp - 55296) * 1024
                                                          + (lo - 56320)) ++ acc)) r3
                                      else lone
                                  | None => lone
                                  end
                                else lone
                            | _ => lone
                            end
                          else lone
                      end
                  | _ => [TBadString]
                  end
                else
                  match simple_escape e with
                  | Some x => lex (MString (x :: acc)) r1
                  | None => [TBadString]
                  end
            end
          else lex (MString (c :: acc)) r
      end
  end.

(** *** Scalars *)

Fixpoint all_digits (s : string) : bool :=
  match s with
  | EmptyString => true
  | String c r => is_digit c && all_digits r
  end.

(** A text that is an integer literal without a sign: digits, the first
    of them not 0. *)
Definition is_natural (s : string) : bool :=
  match s with
  | String c r => is_digit c && negb (Py.code c =? 48) && all_digits r
  | EmptyString => false
  end.

Fixpoint digits_value (acc : Z) (ds : string) : Z :=
  match ds with
  | EmptyString => acc
  | String c r => digits_value (acc * 10 + (Py.code c - 48)) r
  end.

(** [int] refuses a literal of [n] digits: the limit is not zero and [n]
    is above it.  No limit is below 640, so 640 digits always pass. *)
Definition too_many_digits `{Py.Interpreter} (n : nat) : bool :=
  if (n <=? 640)%nat then false
  else negb (Py.int_max_str_digits =? 0)%nat && (Py.int_max_str_digits <? n)%nat.

(** What a literal denotes.  The last three are floats, which the decoder
    gets from a call of its [parse_constant]. *)
Definition word_value (w : string) : option json :=
  if String.eqb w "null" then Some JNull
  else if String.eqb w "true" then Some (JBool true)
  else if String.eqb w "false" then Some (JBool false)
  else if String.eqb w "NaN" then Some (JFloat w)
  else if String.eqb w "Infinity" then Some (JFloat w)
  else if String.eqb w "-Infinity" then Some (JFloat w)
  else None.

Definition is_constant (w : string) : bool :=
  String.eqb w "NaN" || String.eqb w "Infinity" || String.eqb w "-Infinity".

(** *** Syntax analysis

    A pushdown automaton over the tokens.  The stack holds the containers
    that are open, innermost first: the decoder is that many calls deep
    in its recursion. *)

Inductive frame :=
  | FArray (elems_rev : list json)
  | FObject (items : list (string * json)) (key : option string).

Inductive phase :=
  | PValue        (* a value must come *)
  | PValueOrEnd   (* right after an opening bracket *)
  | PAfterElem    (* after an element of an array *)
  | PKeyOrEnd     (* right after an opening brace *)
  | PKey          (* after a comma in an object *)
  | PColon        (* after a key *)
  | PAfterItem    (* after a value of an object *)
  | PDone (v : json).

(** Why the decoder stops: [json.JSONDecodeError], [RecursionError] or
    [ValueError]. *)
Inductive failure :=
  | NotJSON
  | TooDeep
  | TooManyDigits.

(** Where no value starts, the decoder unwinds and raises
    [JSONDecodeError] from the top: that is [NotJSON] at any depth.  The
    other syntax errors (a delimiter, a colon or a key is missing, a
    string is bad) it raises where it stands, which takes three levels of
    the room: without them the outcome is [RecursionError]. *)
Definition syntax_error `{Py.Interpreter} (stack : list frame) : failure :=
  if (length stack + 3 <=? Py.nesting_limit)%nat then NotJSON else TooDeep.

(** A value is complete: it goes to the innermost open container, or it
    is the document. *)
Definition push_value `{Py.Interpreter} (v : json) (stack : list frame)
  : failure + phase * list frame :=
  match stack with
  | [] => inr (PDone v, [])
  | FArray es :: up => inr (PAfterElem, FArray (v :: es) :: up)
  | FObject items (Some k) :: up =>
      inr (PAfterItem, FObject (dict_set k v items) None :: up)
  | FObject _ None :: _ => inl (syntax_error stack)
  end.

Definition close_array `{Py.Interpreter} (stack : list frame)
  : failure + phase * list frame :=
  match stack with
  | FArray es :: up => push_value (JArray (rev es)) up
  | _ => inl (syntax_error stack)
  end.

Definition close_object `{Py.Interpreter} (stack : list frame)
  : failure + phase * list frame :=
  match stack with
  | FObject items None :: up => push_value (JObject items) up
  | _ => inl (syntax_error stack)
  end.

Definition set_key `{Py.Interpreter} (k : string) (stack : list frame)
  : failure + phase * list frame :=
  match stack with
  | FObject items None :: up => inr (PColon, FObject items (Some k) :: up)
  | _ => inl (syntax_error stack)
  end.

(** A container opens inside the ones of [stack]: the decoder recurses,
    and the interpreter stops it when there is no room left. *)
Definition open_container `{Py.Interpreter} (p : phase) (f : frame)
    (stack : list frame) : failure + phase * list frame :=
  if (S (length stack) <=? Py.nesting_limit)%nat then inr (p, f :: stack)
  else inl TooDeep.

(** The value an integer literal denotes, unless [int] refuses it. *)
Definition int_value `{Py.Interpreter} (negative : bool) (digits : string)
  : failure + json :=
  if too_many_digits (String.length digits) then inl TooManyDigits
  else
    let n := digits_value 0 digits in
    inr (JInt (if negative then - n else n)).

(** The value of a literal; the call that gives a constant takes one
    level of the room. *)
Definition literal_value `{Py.Interpreter} (w : string) (stack : list frame)
  : failure + json :=
  match word_value w with
  | Some v =>
      if is_constant w && negb (S (length stack) <=? Py.nesting_limit)%nat
      then inl TooDeep else inr v
  | None => inl NotJSON
  end.

(** The token is where a value must start. *)
Definition start_value `{Py.Interpreter} (t : token) (stack : list frame)
  : failure + phase * list frame :=
  match t with
  | TString s => push_value (JString s) stack
  | TInt negative digits =>
      match int_value negative digits with
      | inr v => push_value v stack
      | inl e => inl e
      end
  | TFloat l => push_value (JFloat l) stack
  | TWord w =>
      match literal_value w stack with
      | inr v => push_value v stack
      | inl e => inl e
      end
  | TLBracket => open_container PValueOrEnd (FArray []) stack
  | TLBrace => open_container PKeyOrEnd (FObject [] None) stack
  | TBadString => inl (syntax_error stack)
  | _ => inl NotJSON
  end.

Definition step `{Py.Interpreter} (p : phase) (stack : list frame) (t : token)
  : failure + phase * list frame :=
  match p, t with
  | PValue, _ => start_value t stack
  | PValueOrEnd, TRBracket => close_array stack
  | PValueOrEnd, _ => start_value t stack
  | PAfterElem, TComma => inr (PValue, stack)
  | PAfterElem, TRBracket => close_array stack
  | PKeyOrEnd, TRBrace => close_object stack
  | PKeyOrEnd, TString k => set_key k stack
  | PKey, TString k => set_key k stack
  | PColon, TColon => inr (PValue, stack)
  | PAfterItem, TComma => inr (PKey, stack)
  | PAfterItem, TRBrace => close_object stack
  | PDone _, _ => inl NotJSON      (* extra data after the document *)
  | _, _ => inl (syntax_error stack)
  end.

(** The text ends in phase [p]. *)
Definition finish `{Py.Interpreter} (p : phase) (stack : list frame)
  : failure + json :=
  match p with
  | PDone v => inr v
  | PValue | PValueOrEnd => inl NotJSON
  | _ => inl (syntax_error stack)
  end.

(** The tokens are taken in order, so the first failure of the text is
    the one reported. *)
Fixpoint parse `{Py.Interpreter} (p : phase) (stack : list frame)
    (ts : list token) : failure + json :=
  match ts with
  | [] => finish p stack
  | t :: rest =>
      match step p stack t with
      | inr (p', stack') => parse p' stack' rest
      | inl e => inl e
      end
  end.

(** [json.loads(s)]: the value, or the exception it raises. *)
Definition loads `{Py.Interpreter} (s : string) : failure + json :=
  parse PValue [] (lex MDefault s).

End Json.

(** ** The chat client ([gcal_mcp_client.py]) *)

Module Client.
Import Json.

(** *** Tool descriptors and [_convert_mcp_tools_to_groq] *)

(** A JSON-schema object, a Python [dict]. *)
Abbreviation schema := (list (string * json)).

(** What the function reads of a tool descriptor of the MCP server: its
    name, its description, and its parameter schema under either of two
    attribute names.  An attribute that is absent or [None] is [None]. *)
Record Tool := mkTool {
  name : string;
  description : option string;
  inputSchema : option schema;
  input_schema : option schema
}.

(** An entry of the tool list in the calling convention of the chat API:
    [{"type": ..., "function": {"name", "description", "parameters"}}]. *)
Record GroqTool := mkGroqTool {
  gt_type : string;
  gt_name : string;
  gt_description : string;
  gt_parameters : schema
}.

(** [x or y] on optional dicts: [None] and the empty dict are falsy. *)
Definition schema_or (x y : option schema) : option schema :=
  match x with
  | Some (_ :: _) => x
  | _ => y
  end.

(** The last operand of an [or] chain is its value when the others are
    falsy. *)
Definition schema_or_default (x : option schema) (default : schema) : schema :=
  match x with
  | Some (i :: d) => i :: d
  | _ => default
  end.

Definition object_schema : schema := [("type", JString "object")].

Definition convert_tool (t : Tool) : GroqTool :=
  let params :=
    schema_or_default (schema_or (inputSchema t) (input_schema t)) object_schema in
  {| gt_type := "function";
     gt_name := name t;
     gt_description := Py.str_or (description t) "No description";
     gt_parameters := params |}.

(** [_convert_mcp_tools_to_groq] (lines 16-30): the loop appends one
    converted entry per tool, in order. *)
Fixpoint _convert_mcp_tools_to_groq (tools : list Tool) : list GroqTool :=
  match tools with
  | [] => []
  | t :: rest => convert_tool t :: _convert_mcp_tools_to_groq rest
  end.

(** *** Tool results and [_flatten_tool_result] *)

(** A content block, as far as the function inspects it.  A typed block is
    an object whose attributes [type] and [text] may be present; a
    dict-style block is a [dict] whose keys ["type"] and ["text"] may be
    present.  Texts are [str]. *)
Inductive ContentBlock :=
  | TypedBlock (type : option string) (text : option string)
  | DictBlock (type : option string) (text : option string).

(** [CallToolResult]: the [content] attribute (absent or [None] is
    [None]) and the error flag of the peer. *)
Record CallToolResult := mkCallToolResult {
  content : option (list ContentBlock);
  isError : bool
}.

(** Python's [str] on values whose rendering the program does not
    define. *)
Class Render := {
  str_result : CallToolResult -> string;
  str_block : ContentBlock -> string
}.

Definition is_text (type : option string) : bool :=
  match type with
  | Some t => String.eqb t "text"
  | None => false
  end.

(** [_flatten_tool_result] (lines 33-52).  First, the part one block
    contributes to [parts]. *)
Definition block_part `{Render} (block : ContentBlock) : string :=
  match block with
  | TypedBlock type text =>
      if is_text type then default "" text else str_block block
  | DictBlock type text =>
      if is_text type then default "" text else str_block block
  end.

Definition _flatten_tool_result `{Render} (result : CallToolResult) : string :=
  let blocks := default [] (content result) in
  let parts := map block_part blocks in
  match parts with
  | [] => str_result result
  | _ => Py.join Py.LF (List.filter Py.nonempty parts)
  end.

(** *** Messages *)

(** A tool call of the model: [tc.id], [tc.type], [tc.function.name] and
    [tc.function.arguments]. *)
Record ToolCall := mkToolCall {
  tc_id : string;
  tc_type : string;
  tc_name : string;
  tc_arguments : string
}.

(** The message of a completion: [msg.content] and [msg.tool_calls]. *)
Record ChatMessage := mkChatMessage {
  msg_content : option string;
  msg_tool_calls : option (list ToolCall)
}.

(** An element of the transcript [messages], by role. *)
Inductive Message :=
  | SystemMessage (text : string)
  | UserMessage (text : string)
  | AssistantMessage (text : string) (tool_calls : list ToolCall)
  | ToolMessage (tool_call_id : string) (tool_name : string) (text : string).

Definition system_prompt : string :=
  "You are a calendar assistant. You can create, list, and cancel Google Calendar events "
  ++ "using the provided tools. Prefer ISO 8601 for times; default timezone is Asia/Colombo. "
  ++ "Ask for any missing required fields before creating or canceling events.".

(** *** Exceptions

    The program talks to a terminal, to the MCP server and to the chat
    API.  Exceptions are the ones these raise and the ones [json.loads]
    raises; none is caught anywhere in the program except
    [JSONDecodeError] below. *)
Inductive Exception :=
  | EOFError
  | McpError (during : string) (detail : string)
  | APIError (detail : string)
  | RecursionError
  | ValueError.

(** *** Argument parsing *)

(** The [try] block in the loop over tool calls (lines 129-133):
    [json.loads(arguments or "{}")], and on [JSONDecodeError] the raw
    text under ["_raw"].  The [except] clause names [JSONDecodeError]
    only: the other two exceptions of [json.loads] leave the block. *)
Definition parse_arguments `{Py.Interpreter} (arguments : string)
  : Exception + json :=
  match loads (Py.str_or (Some arguments) "{}") with
  | inr args => inr args
  | inl NotJSON => inr (JObject [("_raw", JString arguments)])
  | inl TooDeep => inl RecursionError
  | inl TooManyDigits => inl ValueError
  end.

(** *** The environment *)

(** What happens outside the program, in order. *)
Inductive Event :=
  | Prompt (text : string)                      (* input(text) *)
  | PrintLine (text : string)                   (* print(text) *)
  | PrintTools (names : list string)            (* print("Connected. Tools:", names) *)
  | ModelCall (messages : list Message) (tools : list GroqTool)
  | CallTool (tool : string) (args : json).

(** The peers of the program over a world [W]: each call may change the
    world, and returns or raises.
    - [connect path] spawns the server and opens and initialises the
      session, then lists the tools;
    - [groq_client] builds the API client;
    - [create] is [chat.completions.create(...)]: it gets the transcript and
      the tool list and gives [response.choices[0].message];
    - [call_tool] is [session.call_tool(name, args)].
    With them come the interpreter the program runs on and its [str]. *)
Class Peers (W : Type) := {
  connect : string -> W -> (Exception + list Tool) * W;
  groq_client : W -> (Exception + unit) * W;
  create : list Message -> list GroqTool -> W -> (Exception + ChatMessage) * W;
  call_tool : string -> json -> W -> (Exception + CallToolResult) * W;
  peers_render :: Render;
  peers_interpreter :: Py.Interpreter
}.

(** The state of a run: the transcript, the world and what happened. *)
Record State (W : Type) := mkState {
  messages : list Message;
  world : W;
  trace : list Event
}.
Arguments mkState {W}.
Arguments messages {W}.
Arguments world {W}.
Arguments trace {W}.

(** A computation that returns or raises, on a state that survives
    both. *)
Definition M (W A : Type) : Type := State W -> (Exception + A) * State W.

Definition ret {W A} (a : A) : M W A := fun st => (inr a, st).

Definition raise {W A} (e : Exception) : M W A := fun st => (inl e, st).

Definition bind {W A B} (c : M W A) (k : A -> M W B) : M W B :=
  fun st =>
    match c st with
    | (inl e, st') => (inl e, st')
    | (inr a, st') => k a st'
    end.

Declare Scope client_scope.
Delimit Scope client_scope with client.
Notation "'do' x <- c ; k" := (bind c (fun x => k))
  (at level 10, x name, c at level 100, k at level 200) : client_scope.
Notation "c ;; k" := (bind c (fun _ => k))
  (at level 100, k at level 200, right associativity) : client_scope.
Local Open Scope client_scope.

Definition log {W} (e : Event) : M W unit :=
  fun st => (inr tt, mkState (messages st) (world st) (trace st ++ [e])).

(** [messages.append(m)]. *)
Definition append_message {W} (m : Message) : M W unit :=
  fun st => (inr tt, mkState (messages st ++ [m]) (world st) (trace st)).

Definition get_messages {W} : M W (list Message) :=
  fun st => (inr (messages st), st).

(** A call to a peer, on the world of the state. *)
Definition peer {W A} (f : W -> (Exception + A) * W) : M W A :=
  fun st =>
    let '(r, w) := f (world st) in
    (r, mkState (messages st) w (trace st)).

(** A step of the program itself that returns or raises. *)
Definition lift {W A} (r : Exception + A) : M W A :=
  fun st => (r, st).

Section Driver.
Context {W : Type} `{Peers W}.

(** The body of [for tc in tool_calls] (lines 126-144). *)
Definition dispatch_tool_call (tc : ToolCall) : M W unit :=
  let name := tc_name tc in
  do args <- lift (parse_arguments (tc_arguments tc)) ;
  log (CallTool name args) ;;
  do result <- peer (call_tool name args) ;
  let tool_text := _flatten_tool_result result in
  append_message (ToolMessage (tc_id tc) name tool_text).

Fixpoint dispatch_tool_calls (tcs : list ToolCall) : M W unit :=
  match tcs with
  | [] => ret tt
  | tc :: rest => dispatch_tool_call tc ;; dispatch_tool_calls rest
  end.

(** Truthiness of [msg.tool_calls]: [None] and the empty list are
    falsy. *)
Definition requested (msg : ChatMessage) : list ToolCall :=
  default [] (msg_tool_calls msg).

(** [for _ in range(n)] (lines 95-151): the rounds of one user turn.  A round with tool
    calls ends in [continue]; a round without prints and ends in [break]. *)
Fixpoint rounds (groq_tools : list GroqTool) (n : nat) : M W unit :=
  match n with
  | O => ret tt
  | S n' =>
      do transcript <- get_messages ;
      log (ModelCall transcript groq_tools) ;;
      do msg <- peer (create transcript groq_tools) ;
      match requested msg with
      | [] =>
          log (PrintLine (Py.LF ++ Py.strip (Py.str_or (msg_content msg) "") ++ Py.LF))
      | tool_calls =>
          append_message
            (AssistantMessage (Py.str_or (msg_content msg) "") tool_calls) ;;
          dispatch_tool_calls tool_calls ;;
          rounds groq_tools n'
      end
  end.

(** [user.lower() in {"quit", "exit"}]. *)
Definition is_quit (user : string) : bool :=
  let l := Py.lower user in String.eqb l "quit" || String.eqb l "exit".

(** One user turn after the line has been read and found not to be a quit
    command. *)
Definition user_turn (groq_tools : list GroqTool) (user : string) : M W unit :=
  append_message (UserMessage user) ;;
  rounds groq_tools 5.

(** [while True] (lines 87-151): the loop over the lines of the standard
    input.  At the end of the input, [input] raises [EOFError]. *)
Fixpoint chat_loop (groq_tools : list GroqTool) (stdin : list string) : M W unit :=
  match stdin with
  | [] => log (Prompt "> ") ;; raise EOFError
  | line :: rest =>
      log (Prompt "> ") ;;
      let user := Py.strip line in
      if is_quit user then ret tt
      else user_turn groq_tools user ;; chat_loop groq_tools rest
  end.

(** The two lines printed before the first prompt. *)
Definition banner1 : string :=
  Py.LF ++ "Type your request (e.g., “Create a 1-hour Meet ‘OU workshop prep’ today 3pm, invite a@x.com”).".
Definition banner2 : string := "Type 'quit' to exit." ++ Py.LF.

(** [run_client] (lines 55-151).  Leaving the [async with] block closes
    the session and stops the server; this release is not modelled. *)
Definition run_client (server_path : string) (stdin : list string) : M W unit :=
  do tools <- peer (connect server_path) ;
  let groq_tools := _convert_mcp_tools_to_groq tools in
  log (PrintTools (map gt_name groq_tools)) ;;
  peer groq_client ;;
  append_message (SystemMessage system_prompt) ;;
  log (PrintLine banner1) ;;
  log (PrintLine banner2) ;;
  chat_loop groq_tools stdin.

(** How the process ends: an exit status, or an exception nobody
    caught. *)
Inductive Termination :=
  | Exit (status : Z)
  | Uncaught (e : Exception).

Definition usage : string :=
  "Usage: python groq_mcp_client.py <path\to\gcal_mcp_server.py>".

(** The script (lines 154-158), run on [sys.argv], the lines of the
    standard input and the world it starts in. *)
Definition main (argv : list string) (stdin : list string) (w : W)
  : Termination * State W :=
  let st0 := mkState [] w [] in
  match argv with
  | _ :: server_path :: _ =>
      match run_client server_path stdin st0 with
      | (inr _, st) => (Exit 0, st)
      | (inl e, st) => (Uncaught e, st)
      end
  | _ =>
      match log (PrintLine usage) st0 with
      | (_, st) => (Exit 1, st)
      end
  end.

End Driver.

(** *** Reading payloads *)

(** A textual block with text [t], typed or dict-style. *)
Definition is_text_block (b : ContentBlock) (t : string) : Prop :=
  b = TypedBlock (Some "text") (Some t) \/ b = DictBlock (Some "text") (Some t).

(** The type tag of a block. *)
Definition block_type (b : ContentBlock) : option string :=
  match b with
  | TypedBlock type _ => type
  | DictBlock type _ => type
  end.

(** Some block of the payload is tagged as text. *)
Definition has_text_block (r : CallToolResult) : bool :=
  existsb (fun b => is_text (block_type b)) (default [] (content r)).

(** *** Reading transcripts and traces *)

(** A tool message answers a tool call: it carries the id and the name of
    the call. *)
Definition answers (tc : ToolCall) (m : Message) : Prop :=
  exists text, m = ToolMessage (tc_id tc) (tc_name tc) text.

(** The messages a user turn appends after the user message, round by
    round: an assistant message with its tool calls, then one answer per
    call, in the order of the calls.  With [finished = false] the last
    round may stop early: answers for the first calls only. *)
Inductive turn_blocks (finished : bool) : list Message -> Prop :=
  | tb_end :
      turn_blocks finished []
  | tb_round text tcs ms rest :
      tcs <> [] ->
      Forall2 answers tcs ms ->
      turn_blocks finished rest ->
      turn_blocks finished (AssistantMessage text tcs :: ms ++ rest)
  | tb_cut text tcs ms n :
      finished = false ->
      (n < length tcs)%nat ->
      Forall2 answers (firstn n tcs) ms ->
      turn_blocks finished (AssistantMessage text tcs :: ms).

Definition is_model_call (e : Event) : bool :=
  match e with ModelCall _ _ => true | _ => false end.

(** The number of completions asked for in a trace. *)
Definition model_calls (tr : list Event) : nat :=
  length (List.filter is_model_call tr).

Definition returned {A} (r : Exception + A) : bool :=
  match r with inr _ => true | inl _ => false end.

(** A tool call is abandoned in a transcript when no message of the
    transcript answers it. *)
Definition abandoned (tc : ToolCall) (transcript : list Message) : Prop :=
  ~ exists m, In m transcript /\ answers tc m.

Definition is_print_line (e : Event) : bool :=
  match e with PrintLine _ => true | _ => false end.

(** Peers whose completions and tool calls always return. *)
Definition never_raises {W} (P : Peers W) : Prop :=
  (forall ms ts w, returned (fst (create ms ts w)) = true) /\
  (forall n a w, returned (fst (call_tool n a w)) = true).

(** A model whose argument texts [json.loads] decodes or refuses as JSON:
    none is nested too deep or has an integer too long for the
    interpreter. *)
Definition arguments_decode {W} (P : Peers W) : Prop :=
  forall ms ts w m w' tc,
    create ms ts w = (inr m, w') -> In tc (requested m) ->
    returned (parse_arguments (tc_arguments tc)) = true.


(** The assistant messages of a transcript. *)
Definition is_assistant (m : Message) : bool :=
  match m with AssistantMessage _ _ => true | _ => false end.

(** *** Scripted peers

    Two concrete environments to run the program on. *)

(** A stand-in for Python's [str] on results and blocks. *)
Definition sample_render : Render :=
  {| str_result := fun _ => "<CallToolResult>";
     str_block := fun _ => "<ContentBlock>" |}.

(** A script: what discovery gives, and the outcomes of the completions
    and of the tool calls to come, in order. *)
Record Script := mkScript {
  discovery : Exception + list Tool;
  completions : list (Exception + ChatMessage);
  tool_results : list (Exception + CallToolResult)
}.

Definition scripted_peers : Peers Script :=
  {| connect := fun _ w => (discovery w, w);
     groq_client := fun w => (inr tt, w);
     create := fun _ _ w =>
       match completions w with
       | [] => (inl (APIError "end of script"), w)
       | c :: rest => (c, mkScript (discovery w) rest (tool_results w))
       end;
     call_tool := fun _ _ w =>
       match tool_results w with
       | [] => (inl (McpError "tools/call" "end of script"), w)
       | r :: rest => (r, mkScript (discovery w) (completions w) rest)
       end;
     peers_render := sample_render;
     peers_interpreter := Py.cpython_311 |}.

Definition text_result (t : string) : CallToolResult :=
  {| content := Some [TypedBlock (Some "text") (Some t)]; isError := false |}.

(** A model that asks for tool [X] at every call, the world counting the
    calls, and a server that always answers ["ok"]. *)
Definition eager_call (n : nat) : ToolCall :=
  {| tc_id := "call_" ++ String (Py.chr (48 + Z.of_nat n)) "";
     tc_type := "function";
     tc_name := "X";
     tc_arguments := "{}" |}.

Definition eager_peers : Peers nat :=
  {| connect := fun _ n => (inr [], n);
     groq_client := fun n => (inr tt, n);
     create := fun _ _ n =>
       (inr {| msg_content := None; msg_tool_calls := Some [eager_call (S n)] |}, S n);
     call_tool := fun _ _ n => (inr (text_result "ok"), n);
     peers_render := sample_render;
     peers_interpreter := Py.cpython_311 |}.

(** Scripts.  The server offers [cancel_event]; the model asks for it
    once and then answers.  In [failing_script] the server reports the
    failure in its result; in [raising_script] the call itself raises. *)
Definition cancel_call : ToolCall :=
  mkToolCall "call_7" "function" "cancel_event"
    ("{" ++ Py.quoted "event_id" ++ ": " ++ Py.quoted "abc" ++ "}").

Definition error_result : CallToolResult :=
  {| content :=
       Some [TypedBlock (Some "text")
               (Some "Error executing tool cancel_event: not found")];
     isError := true |}.

Definition failing_script : Script :=
  {| discovery := inr [mkTool "cancel_event" None None None];
     completions :=
       [inr (mkChatMessage None (Some [cancel_call]));
        inr (mkChatMessage (Some "The event does not exist.") None)];
     tool_results := [inr error_result] |}.

Definition raising_script : Script :=
  {| discovery := inr [mkTool "cancel_event" None None None];
     completions :=
       [inr (mkChatMessage None (Some [cancel_call]));
        inr (mkChatMessage (Some "The event does not exist.") None)];
     tool_results := [inl (McpError "tools/call" "Connection closed")] |}.

(** The model asks for [cancel_event] with an argument text of 995
    opening brackets. *)
Definition nested_call : ToolCall :=
  mkToolCall "call_9" "function" "cancel_event" (Py.times "[" 995).

Definition nested_script : Script :=
  {| discovery := inr [mkTool "cancel_event" None None None];
     completions :=
       [inr (mkChatMessage None (Some [nested_call]));
        inr (mkChatMessage (Some "Cancelled.") None)];
     tool_results := [inr (text_result "ok")] |}.

(** The argument text [{"a":1}]. *)
Definition a1_arguments : string := "{" ++ Py.quoted "a" ++ ":1}".

(** The model asks for [X] with [{"a":1}] and then says ["done"]. *)
Definition done_script : Script :=
  {| discovery := inr [mkTool "X" None None None];
     completions :=
       [inr (mkChatMessage None (Some [mkToolCall "call_1" "function" "X" a1_arguments]));
        inr (mkChatMessage (Some "done") None)];
     tool_results := [inr (text_result "1")] |}.

End Client.

(** ** The to-do service over time *)

Module TodoRuns.
Import Todo.

(** A request that reaches one of the three handlers that write to the
    store; the two [GET] handlers do not write. *)
Inductive Request :=
  | PostTask (payload : TaskCreate)
  | PostSubtask (tid : Z) (payload : SubtaskCreate)
  | PatchSubtask (tid sid : Z) (payload : SubtaskUpdate).

(** The store after a request has been handled, whatever the answer. *)
Definition handle (r : Request) (st : Store) : Store :=
  match r with
  | PostTask payload => snd (create_task payload st)
  | PostSubtask tid payload => snd (add_subtask tid payload st)
  | PatchSubtask tid sid payload => snd (update_subtask tid sid payload st)
  end.

(** The store after a sequence of requests, handled one after the other. *)
Definition serve (rs : list Request) (st : Store) : Store :=
  fold_left (fun st r => handle r st) rs st.

(** The stores the service can be in: those a fresh service reaches. *)
Definition reachable (st : Store) : Prop :=
  exists rs, st = serve rs empty_store.

(** Subtask [s] is at position [n] of the task stored under [k]. *)
Definition holds (st : Store) (k : Z) (n : nat) (s : Subtask) : Prop :=
  exists t, TASKS st !! k = Some t /\ task_subtasks t !! n = Some s.

(** A run used below: a task with two subtasks, a second task without
    subtasks, a subtask added to each, one subtask closed, and two
    requests that are refused. *)
Definition sample_requests : list Request :=
  [PostTask sample_payload;
   PostTask (mkTaskCreate "empty" (Some "nothing to do") []);
   PostSubtask 2 (mkSubtaskCreate "first" 3 true);
   PostSubtask 9 (mkSubtaskCreate "lost" 3 true);
   PostSubtask 1 (mkSubtaskCreate "archive" 1 false);
   PatchSubtask 1 2 (mkSubtaskUpdate (Some "announce it") (Some true));
   PatchSubtask 1 8 (mkSubtaskUpdate None (Some true))].

(** The store at the end of [sample_requests]. *)
Definition sample_final : Store := serve sample_requests empty_store.

(** What every reachable store satisfies: the counters are not negative,
    the task ids are 1 to [task_id_seq], each task sits under its id with
    its [done] flag in line with its subtasks, and the subtask ids are 1
    to [subtask_id_seq], each at one place. *)
Record sound (st : Store) : Prop := mkSound {
  sound_seqs : 0 <= task_id_seq st /\ 0 <= subtask_id_seq st;
  sound_dom : forall k, is_Some (TASKS st !! k) <-> 1 <= k <= task_id_seq st;
  sound_task : forall k t, TASKS st !! k = Some t ->
                           task_id t = k /\ task_done t = all_done (task_subtasks t);
  sound_bound : forall k n s, holds st k n s -> 1 <= sub_id s <= subtask_id_seq st;
  sound_unique : forall k1 n1 s1 k2 n2 s2,
      holds st k1 n1 s1 -> holds st k2 n2 s2 -> sub_id s1 = sub_id s2 ->
      k1 = k2 /\ n1 = n2;
  sound_every : forall i, 1 <= i <= subtask_id_seq st ->
                          exists k n s, holds st k n s /\ sub_id s = i
}.

End TodoRuns.

(** ** The chat client over a session *)

Module ClientRuns.
Import Json Client.

Local Open Scope list_scope.

(** The event of invoking the tool of a call: its name and its parsed
    arguments.  A call whose arguments [json.loads] raises on is not
    invoked. *)
Definition call_event `{Py.Interpreter} (tc : ToolCall) : option Event :=
  match parse_arguments (tc_arguments tc) with
  | inr args => Some (CallTool (tc_name tc) args)
  | inl _ => None
  end.

(** The invocations of the calls of a list, in order. *)
Definition call_events `{Py.Interpreter} (tcs : list ToolCall) : list Event :=
  omap call_event tcs.
Arguments call_events : simpl never.

(** Messages by role. *)
Definition is_tool_message (m : Message) : bool :=
  match m with ToolMessage _ _ _ => true | _ => false end.

Definition is_user (m : Message) : bool :=
  match m with UserMessage _ => true | _ => false end.

(** What a round may append: an assistant message that carries at least
    one tool call, or a tool message. *)
Definition round_message (m : Message) : Prop :=
  match m with
  | AssistantMessage _ (_ :: _) => True
  | ToolMessage _ _ _ => True
  | _ => False
  end.

(** What a turn may append: the user message, and what its rounds
    append. *)
Definition turn_message (m : Message) : Prop :=
  match m with
  | UserMessage _ => True
  | _ => round_message m
  end.

(** A transcript whose last message is a user message or a tool
    message. *)
Definition awaits_completion (ms : list Message) : Prop :=
  match last ms with
  | Some (UserMessage _) => True
  | Some (ToolMessage _ _ _) => True
  | _ => False
  end.

(** A completion request [e] of a session that started on the
    transcript [start] with the tool list [tools]: it carries that tool
    list and a transcript that extends [start] and awaits a completion.
    Other events are not constrained. *)
Definition completion_ok (tools : list GroqTool) (start : list Message) (e : Event) : Prop :=
  match e with
  | ModelCall ms ts =>
      ts = tools /\ (exists more, ms = start ++ more) /\ awaits_completion ms
  | _ => True
  end.

(** The texts of the user messages of a transcript, in order. *)
Definition user_texts (ms : list Message) : list string :=
  omap (fun m => match m with UserMessage text => Some text | _ => None end) ms.

End ClientRuns.

(** * Part II.  Properties *)

(** ** The to-do service *)

Module TodoProps.
Import Todo.

Lemma all_done_spec (subs : list Subtask) :
  all_done subs = true <->
  (subs <> [] /\ forall s, In s subs -> sub_done s = true).
Proof.
  unfold all_done.
  rewrite andb_true_iff, forallb_forall, Z.ltb_lt.
  destruct subs as [|s subs]; simpl; split.
  - intros [Hlen _]. lia.
  - intros [Hne _]. congruence.
  - intros [_ Hall]. split; [discriminate | exact Hall].
  - intros [_ Hall]. split; [lia | exact Hall].
Qed.

Lemma with_subtasks_consistent (t : Task) (subs : list Subtask) :
  done_consistent (with_subtasks t subs).
Proof. unfold done_consistent. simpl. apply all_done_spec. Qed.

Lemma create_task_eq (payload : TaskCreate) (st : Store) :
  exists subs st2,
    build_subtasks (tc_subtasks payload) (snd (_next_task_id st)) = (subs, st2) /\
    create_task payload st =
      (mkTask (task_id_seq st + 1) (tc_title payload) (tc_description payload)
              (all_done subs) subs,
       store_task (task_id_seq st + 1)
         (mkTask (task_id_seq st + 1) (tc_title payload) (tc_description payload)
                 (all_done subs) subs) st2).
Proof.
  unfold create_task. simpl.
  destruct (build_subtasks _ _) as [subs st2]. eauto.
Qed.

(** C9.  After each of the three mutating handlers, [create_task],
    [add_subtask] and [update_subtask], the task returned is the task
    stored under its id, and its [done] flag is true if and only if it has
    at least one subtask and every subtask is done; so a task without
    subtasks is never marked done. *)
Theorem done_flag_after_mutation :
  (forall payload st t st',
      create_task payload st = (t, st') ->
      TASKS st' !! task_id t = Some t /\ done_consistent t /\
      (task_subtasks t = [] -> task_done t = false))
  /\ (forall tid payload st t st',
      add_subtask tid payload st = (Ok t, st') ->
      TASKS st' !! tid = Some t /\ done_consistent t /\
      (task_subtasks t = [] -> task_done t = false))
  /\ (forall tid sid payload st t st',
      update_subtask tid sid payload st = (Ok t, st') ->
      TASKS st' !! tid = Some t /\ done_consistent t /\
      (task_subtasks t = [] -> task_done t = false)).
Proof.
  assert (Hempty : forall t, done_consistent t ->
                             task_subtasks t = [] -> task_done t = false).
  { intros t Hc Hnil. destruct (task_done t) eqn:Hd; [|reflexivity].
    apply Hc in Hd. destruct Hd as [Hne _]. contradiction. }
  split; [|split].
  - intros payload st t st' Hrun.
    destruct (create_task_eq payload st) as (subs & st2 & _ & Heq).
    rewrite Heq in Hrun. injection Hrun as <- <-. simpl.
    assert (Hc : done_consistent
                   (mkTask (task_id_seq st + 1) (tc_title payload)
                      (tc_description payload) (all_done subs) subs)).
    { unfold done_consistent. simpl. apply all_done_spec. }
    split; [apply lookup_insert_eq | split; [exact Hc | apply (Hempty _ Hc)]].
  - intros tid payload st t st' Hrun. unfold add_subtask in Hrun.
    destruct (TASKS st !! tid) as [task|]; [|discriminate].
    simpl in Hrun. injection Hrun as <- <-.
    split; [apply lookup_insert_eq |].
    split; [apply with_subtasks_consistent |].
    apply Hempty, with_subtasks_consistent.
  - intros tid sid payload st t st' Hrun. unfold update_subtask in Hrun.
    destruct (TASKS st !! tid) as [task|]; [|discriminate].
    destruct (find_subtask sid (task_subtasks task)); [|discriminate].
    injection Hrun as <- <-.
    split; [apply lookup_insert_eq |].
    split; [apply with_subtasks_consistent |].
    apply Hempty, with_subtasks_consistent.
Qed.

(** A run for C9: [sample_payload] created, a third subtask added, then
    the open subtask closed. *)
Lemma done_flag_after_mutation_witness :
  let '(t1, st1) := create_task sample_payload empty_store in
  let '(r2, st2) := add_subtask 1 (mkSubtaskCreate "archive" 1 true) st1 in
  let '(r3, st3) := update_subtask 1 2 (mkSubtaskUpdate None (Some true)) st2 in
  (TASKS st1 !! 1 = Some t1 /\ done_consistent t1 /\ task_done t1 = false) /\
  (exists t2, r2 = Ok t2 /\ TASKS st2 !! 1 = Some t2 /\ done_consistent t2
              /\ task_done t2 = false) /\
  (exists t3, r3 = Ok t3 /\ TASKS st3 !! 1 = Some t3 /\ done_consistent t3
              /\ task_done t3 = true).
Proof.
  destruct done_flag_after_mutation as (Hc & Ha & Hu).
  destruct (create_task sample_payload empty_store) as [t1 st1] eqn:E1.
  destruct (add_subtask 1 (mkSubtaskCreate "archive" 1 true) st1) as [r2 st2] eqn:E2.
  destruct (update_subtask 1 2 (mkSubtaskUpdate None (Some true)) st2) as [r3 st3] eqn:E3.
  vm_compute in E1. injection E1 as <- <-.
  vm_compute in E2. injection E2 as <- <-.
  vm_compute in E3. injection E3 as <- <-.
  split.
  { match goal with |- ?m !! 1 = Some ?t /\ _ =>
      destruct (Hc sample_payload empty_store t (mkStore m 1 2) eq_refl)
        as (H1 & H2 & _) end.
    split; [exact H1 | split; [exact H2 | reflexivity]]. }
  split.
  - eexists. split; [reflexivity|].
    match goal with |- ?m !! 1 = Some ?t /\ _ =>
      destruct (Ha 1 (mkSubtaskCreate "archive" 1 true)
                  (snd (create_task sample_payload empty_store)) t
                  (mkStore m 1 3) eq_refl) as (H1 & H2 & _) end.
    split; [exact H1 | split; [exact H2 | reflexivity]].
  - eexists. split; [reflexivity|].
    match goal with |- ?m !! 1 = Some ?t /\ _ =>
      destruct (Hu 1 2 (mkSubtaskUpdate None (Some true))
                  (snd (add_subtask 1 (mkSubtaskCreate "archive" 1 true)
                          (snd (create_task sample_payload empty_store))))
                  t (mkStore m 1 3) eq_refl) as (H1 & H2 & _) end.
    split; [exact H1 | split; [exact H2 | reflexivity]].
Defined.

Lemma find_subtask_none (sid : Z) (subs : list Subtask) :
  (forall s, In s subs -> sub_id s <> sid) -> find_subtask sid subs = None.
Proof.
  unfold find_subtask. induction subs as [|s subs IH]; intros Hall; simpl.
  - reflexivity.
  - destruct (Z.eqb_spec (sub_id s) sid) as [Heq|Hne].
    + exfalso. apply (Hall s); [left; reflexivity | exact Heq].
    + apply IH. intros s' Hin. apply Hall. right. exact Hin.
Qed.

(** C10.  [add_subtask] and [update_subtask] answer 404 when the task id
    is not in the store, and [update_subtask] answers 404 when the task
    has no subtask with the subtask id.  Whenever one of the two answers
    with an exception, the status is 404 and the store is the one it was
    called on: tasks, subtasks and both id counters. *)
Theorem not_found_leaves_store :
  (forall tid payload st,
      TASKS st !! tid = None ->
      add_subtask tid payload st = (HTTPException 404 "Task not found", st))
  /\ (forall tid sid payload st,
      TASKS st !! tid = None ->
      update_subtask tid sid payload st = (HTTPException 404 "Task not found", st))
  /\ (forall tid sid payload st task,
      TASKS st !! tid = Some task ->
      (forall s, In s (task_subtasks task) -> sub_id s <> sid) ->
      update_subtask tid sid payload st = (HTTPException 404 "Subtask not found", st))
  /\ (forall tid payload st code detail st',
      add_subtask tid payload st = (HTTPException code detail, st') ->
      code = 404 /\ st' = st /\ TASKS st !! tid = None)
  /\ (forall tid sid payload st code detail st',
      update_subtask tid sid payload st = (HTTPException code detail, st') ->
      code = 404 /\ st' = st).
Proof.
  split; [|split; [|split; [|split]]].
  - intros tid payload st Hnone. unfold add_subtask. rewrite Hnone. reflexivity.
  - intros tid sid payload st Hnone. unfold update_subtask. rewrite Hnone. reflexivity.
  - intros tid sid payload st task Hsome Hall. unfold update_subtask.
    rewrite Hsome, (find_subtask_none _ _ Hall). reflexivity.
  - intros tid payload st code detail st' Hrun. unfold add_subtask in Hrun.
    destruct (TASKS st !! tid); [discriminate|].
    injection Hrun as <- _ <-. auto.
  - intros tid sid payload st code detail st' Hrun. unfold update_subtask in Hrun.
    destruct (TASKS st !! tid) as [task|].
    + destruct (find_subtask sid (task_subtasks task)); [discriminate|].
      injection Hrun as <- _ <-. auto.
    + injection Hrun as <- _ <-. auto.
Qed.

(** A run for C10 on [sample_store]: there is no task 7, and no subtask 9
    in task 1. *)
Lemma not_found_leaves_store_witness :
  add_subtask 7 (mkSubtaskCreate "x" 0 false) sample_store
    = (HTTPException 404 "Task not found", sample_store)
  /\ update_subtask 7 1 (mkSubtaskUpdate None (Some true)) sample_store
    = (HTTPException 404 "Task not found", sample_store)
  /\ update_subtask 1 9 (mkSubtaskUpdate None (Some true)) sample_store
    = (HTTPException 404 "Subtask not found", sample_store)
  /\ subtask_id_seq sample_store = 2.
Proof.
  destruct not_found_leaves_store as (Ha & Hu & Hs & Hfa & Hfu).
  split; [apply Ha; vm_compute; reflexivity|].
  split; [apply Hu; vm_compute; reflexivity|].
  split; [|reflexivity].
  eapply Hs.
  - vm_compute. reflexivity.
  - simpl. intros s [<-|[<-|[]]]; simpl; lia.
Defined.

End TodoProps.

(** ** Python strings *)

Module PyProps.
Import Py.

Lemma chr_code (c : ascii) : chr (code c) = c.
Proof. unfold chr, code. rewrite N2Z.id. apply ascii_N_embedding. Qed.

Lemma upper_of (c d : ascii) : code c = code d - 32 -> c = chr (code d - 32).
Proof. intros <-. symmetry. apply chr_code. Qed.

Lemma blank_space1 (c : ascii) :
  In (code c) [9; 10; 11; 12; 13; 32] -> space1 c = true.
Proof.
  unfold space1. simpl.
  intros [<- | [<- | [<- | [<- | [<- | [<- | []]]]]]]; reflexivity.
Qed.

Lemma lstrip_blank (pre s : string) :
  blank pre -> lstrip (pre ++ s) = lstrip s.
Proof.
  unfold blank. induction pre as [|c pre IH]; simpl; intros Hb; [reflexivity|].
  inversion Hb as [|? ? Hc Hrest]; subst.
  rewrite (blank_space1 _ Hc). apply IH. exact Hrest.
Qed.

Lemma lstrip_rev_blank (pre s : string) :
  blank pre -> lstrip_rev (pre ++ s) = lstrip_rev s.
Proof.
  unfold blank. induction pre as [|c pre IH]; simpl; intros Hb; [reflexivity|].
  inversion Hb as [|? ? Hc Hrest]; subst.
  rewrite (blank_space1 _ Hc). apply IH. exact Hrest.
Qed.

Lemma list_of_append (a b : string) :
  list_ascii_of_string (a ++ b)
  = (list_ascii_of_string a ++ list_ascii_of_string b)%list.
Proof. induction a as [|c a IH]; simpl; [reflexivity | rewrite IH; reflexivity]. Qed.

Lemma string_of_app (l1 l2 : list ascii) :
  string_of_list_ascii (l1 ++ l2)%list
  = string_of_list_ascii l1 ++ string_of_list_ascii l2.
Proof. induction l1 as [|c l1 IH]; simpl; [reflexivity | rewrite IH; reflexivity]. Qed.

Lemma rev_string_app (a b : string) :
  rev_string (a ++ b) = rev_string b ++ rev_string a.
Proof.
  unfold rev_string. rewrite list_of_append, rev_app_distr. apply string_of_app.
Qed.

Lemma rev_string_involutive (s : string) : rev_string (rev_string s) = s.
Proof.
  unfold rev_string.
  rewrite list_ascii_of_string_of_list_ascii, rev_involutive.
  apply string_of_list_ascii_of_string.
Qed.

Lemma blank_rev (s : string) : blank s -> blank (rev_string s).
Proof.
  unfold blank, rev_string. intros Hb.
  rewrite list_ascii_of_string_of_list_ascii. apply Forall_rev. exact Hb.
Qed.

(** Stripping a word padded with ASCII whitespace gives the word back,
    when neither end of the word is whitespace. *)
Lemma strip_padded (pre w post : string) :
  blank pre -> blank post ->
  lstrip (w ++ post) = w ++ post ->
  lstrip_rev (rev_string w) = rev_string w ->
  strip (pre ++ w ++ post) = w.
Proof.
  intros Hpre Hpost Hl Hr. unfold strip, rstrip.
  rewrite (lstrip_blank _ _ Hpre), Hl, rev_string_app.
  rewrite (lstrip_rev_blank _ _ (blank_rev _ Hpost)), Hr.
  apply rev_string_involutive.
Qed.

Ltac case_of_letter H :=
  let Hr := fresh in
  destruct H as [-> | [_ Hr]]; [| apply upper_of in Hr; subst].

(** A word that is ["quit"] or ["exit"] up to case, padded with ASCII
    whitespace, is ["quit"] or ["exit"] once stripped and lowered. *)
Lemma padded_command (pre w post : string) :
  blank pre -> blank post ->
  caseless w "quit" \/ caseless w "exit" ->
  lower (strip (pre ++ w ++ post)) = "quit" \/
  lower (strip (pre ++ w ++ post)) = "exit".
Proof.
  intros Hpre Hpost [Hw | Hw]; [left | right];
    inversion Hw as [|c1 d1 s1 t1 H1 Hw1]; subst;
    inversion Hw1 as [|c2 d2 s2 t2 H2 Hw2]; subst;
    inversion Hw2 as [|c3 d3 s3 t3 H3 Hw3]; subst;
    inversion Hw3 as [|c4 d4 s4 t4 H4 Hw4]; subst;
    inversion Hw4; subst;
    case_of_letter H1; case_of_letter H2; case_of_letter H3; case_of_letter H4;
    (rewrite strip_padded; [reflexivity | exact Hpre | exact Hpost
                            | reflexivity | reflexivity]).
Qed.

End PyProps.

(** ** The chat client *)

Module ClientProps.
Import Json Client.

(** *** The tool list *)

(** C7.  [_convert_mcp_tools_to_groq] is a total function of the
    descriptor list: the result has one entry per descriptor, at the same
    position and with the same name; a missing description becomes the
    placeholder ["No description"] and a missing parameter schema becomes
    the empty-object schema [{"type": "object"}], while a description or a
    schema that is present and not empty is passed on. *)
Theorem convert_total_and_defaults (tools : list Tool) :
  length (_convert_mcp_tools_to_groq tools) = length tools /\
  forall (i : nat) (t : Tool),
    tools !! i = Some t ->
    exists g,
      _convert_mcp_tools_to_groq tools !! i = Some g /\
      gt_type g = "function" /\
      gt_name g = name t /\
      (description t = None -> gt_description g = "No description") /\
      (forall d, description t = Some d -> d <> "" -> gt_description g = d) /\
      (inputSchema t = None -> input_schema t = None ->
       gt_parameters g = [("type", JString "object")]) /\
      (forall s, inputSchema t = Some s -> s <> [] -> gt_parameters g = s) /\
      (forall s, inputSchema t = None -> input_schema t = Some s -> s <> [] ->
                 gt_parameters g = s).
Proof.
  induction tools as [|t0 tools [IHlen IH]]; simpl.
  - split; [reflexivity|]. intros i t Hi. destruct i; discriminate.
  - split; [f_equal; exact IHlen|].
    intros [|i] t Hi; simpl in *.
    + injection Hi as <-. exists (convert_tool t0).
      split; [reflexivity|]. unfold convert_tool; simpl.
      split; [reflexivity|]. split; [reflexivity|].
      split; [intros ->; reflexivity|].
      split; [intros d -> Hd; destruct d; [contradiction|reflexivity]|].
      split; [intros -> ->; reflexivity|].
      split.
      * intros s -> Hs. destruct s; [contradiction|reflexivity].
      * intros s -> -> Hs. destruct s; [contradiction|reflexivity].
    + apply IH. exact Hi.
Qed.

(** C7 on two descriptors, the second without description and schema. *)
Lemma convert_total_and_defaults_witness :
  exists g,
    _convert_mcp_tools_to_groq
      [mkTool "create_event" (Some "Create an event") (Some [("type", JString "object");
                                                            ("required", JArray [JString "title"])]) None;
       mkTool "cancel_event" None None None] !! 1%nat = Some g /\
    gt_name g = "cancel_event" /\
    gt_description g = "No description" /\
    gt_parameters g = [("type", JString "object")].
Proof.
  destruct (proj2 (convert_total_and_defaults
              [mkTool "create_event" (Some "Create an event")
                 (Some [("type", JString "object");
                        ("required", JArray [JString "title"])]) None;
               mkTool "cancel_event" None None None])
              1%nat (mkTool "cancel_event" None None None) eq_refl)
    as (g & Hg & _ & Hname & Hdesc & _ & Hparams & _).
  exists g. split; [exact Hg|]. split; [exact Hname|].
  split; [apply Hdesc; reflexivity | apply Hparams; reflexivity].
Defined.

(** *** Flattening a tool result *)

Section Flatten.
Context `{Render}.

Lemma join_nonempty_parts (parts : list string) :
  Forall (fun p => p <> "") parts ->
  Py.join Py.LF parts = "" -> parts = [].
Proof.
  intros Hall Hj. destruct parts as [|p rest]; [reflexivity|].
  exfalso. inversion Hall as [|? ? Hp _]; subst.
  destruct p as [|c p]; [contradiction|].
  destruct rest; simpl in Hj; discriminate.
Qed.

Lemma filter_nonempty_all (parts : list string) :
  Forall (fun p => p <> "") (List.filter Py.nonempty parts).
Proof.
  induction parts as [|p parts IH]; simpl; [constructor|].
  destruct p; simpl; [exact IH|]. constructor; [discriminate | exact IH].
Qed.

Lemma filter_nonempty_id (parts : list string) :
  Forall (fun p => p <> "") parts -> List.filter Py.nonempty parts = parts.
Proof.
  induction 1 as [|p parts Hp _ IH]; simpl; [reflexivity|].
  destruct p; [contradiction|]. simpl. f_equal. exact IH.
Qed.

Lemma filter_nonempty_nil (parts : list string) :
  List.filter Py.nonempty parts = [] <-> Forall (fun p => p = "") parts.
Proof.
  induction parts as [|p parts IH]; simpl.
  - split; [constructor | reflexivity].
  - destruct p; simpl.
    + rewrite IH. split; [constructor; auto | inversion 1; auto].
    + split; [discriminate | inversion 1; discriminate].
Qed.

Lemma text_block_part (b : ContentBlock) (t : string) :
  is_text_block b t -> block_part b = t.
Proof. intros [-> | ->]; reflexivity. Qed.

Lemma text_blocks_parts (blocks : list ContentBlock) (texts : list string) :
  Forall2 is_text_block blocks texts -> map block_part blocks = texts.
Proof.
  induction 1 as [|b t blocks texts Hb _ IH]; simpl; [reflexivity|].
  rewrite (text_block_part _ _ Hb), IH. reflexivity.
Qed.

Lemma flatten_blocks (r : CallToolResult) (blocks : list ContentBlock) :
  content r = Some blocks -> blocks <> [] ->
  _flatten_tool_result r
  = Py.join Py.LF (List.filter Py.nonempty (map block_part blocks)).
Proof.
  intros Hc Hne. unfold _flatten_tool_result. rewrite Hc. simpl.
  destruct blocks; [contradiction | reflexivity].
Qed.

(** C4, as amended.  Flattening joins, with line feeds between them, the
    parts of the payload that are not empty, in order: a textual block
    gives its text, any other block its own rendering.  So a payload of
    textual blocks with non-empty texts gives the texts joined by line
    feeds (["a"] and ["b"] give ["a\nb"]); a payload of blocks none of
    which is textual gives the renderings of the blocks joined, not the
    rendering of the payload; the rendering of the whole result is
    returned when the payload has no block at all (empty or missing); and
    the string returned for a payload with blocks is empty exactly when
    every part is empty. *)
Theorem flatten_joins_nonempty_parts :
  (forall blocks texts err,
      Forall2 is_text_block blocks texts -> texts <> [] ->
      Forall (fun t => t <> "") texts ->
      _flatten_tool_result (mkCallToolResult (Some blocks) err)
      = Py.join Py.LF texts)
  /\ _flatten_tool_result
       (mkCallToolResult
          (Some [TypedBlock (Some "text") (Some "a");
                 DictBlock (Some "text") (Some "b")]) false)
     = "a" ++ Py.LF ++ "b"
  /\ (forall r, content r = None \/ content r = Some [] ->
                _flatten_tool_result r = str_result r)
  /\ (forall r blocks,
      content r = Some blocks -> blocks <> [] ->
      _flatten_tool_result r
      = Py.join Py.LF (List.filter Py.nonempty (map block_part blocks)))
  /\ (forall b, (forall t, is_text_block b t -> block_part b = t) /\
                (is_text (block_type b) = false -> block_part b = str_block b))
  /\ (forall r blocks,
      content r = Some blocks -> blocks <> [] -> has_text_block r = false ->
      _flatten_tool_result r
      = Py.join Py.LF (List.filter Py.nonempty (map str_block blocks)))
  /\ (forall r blocks,
      content r = Some blocks -> blocks <> [] ->
      (_flatten_tool_result r = "" <->
       Forall (fun b => block_part b = "") blocks)).
Proof.
  split; [|split; [|split; [|split; [|split; [|split]]]]].
  - intros blocks texts err Hb Hne Hall.
    assert (Hbl : blocks <> []).
    { intros ->. inversion Hb; subst. contradiction. }
    rewrite (flatten_blocks (mkCallToolResult (Some blocks) err) blocks eq_refl Hbl).
    rewrite (text_blocks_parts _ _ Hb), (filter_nonempty_id _ Hall). reflexivity.
  - reflexivity.
  - intros r [Hc | Hc]; unfold _flatten_tool_result; rewrite Hc; reflexivity.
  - exact flatten_blocks.
  - intros b. split; [apply text_block_part|].
    destruct b as [ty tx | ty tx]; simpl; intros ->; reflexivity.
  - intros r blocks Hc Hne Hnt.
    rewrite (flatten_blocks _ _ Hc Hne). do 2 f_equal.
    unfold has_text_block in Hnt. rewrite Hc in Hnt. simpl in Hnt.
    clear Hc Hne. induction blocks as [|b blocks IH]; simpl; [reflexivity|].
    simpl in Hnt. apply orb_false_iff in Hnt. destruct Hnt as [Hb Hrest].
    rewrite (IH Hrest). f_equal.
    destruct b as [ty tx | ty tx]; simpl in *; rewrite Hb; reflexivity.
  - intros r blocks Hc Hne. rewrite (flatten_blocks _ _ Hc Hne). split.
    + intros Hj. apply join_nonempty_parts in Hj; [|apply filter_nonempty_all].
      apply filter_nonempty_nil in Hj.
      apply Forall_map in Hj. exact Hj.
    + intros Hall.
      apply (proj2 (Forall_map block_part (fun p => p = "") blocks)) in Hall.
      apply filter_nonempty_nil in Hall. rewrite Hall. reflexivity.
Qed.

End Flatten.

(** C4 on a payload of two texts, on a payload of one image and on a
    payload of one empty text. *)
Lemma flatten_joins_nonempty_parts_witness :
  @_flatten_tool_result sample_render
    (mkCallToolResult
       (Some [TypedBlock (Some "text") (Some "created");
              DictBlock (Some "text") (Some "https://meet.example/x")]) false)
  = Py.join Py.LF ["created"; "https://meet.example/x"]
  /\ @_flatten_tool_result sample_render
       (mkCallToolResult (Some [TypedBlock (Some "image") None]) false)
     = "<ContentBlock>"
  /\ @_flatten_tool_result sample_render
       (mkCallToolResult (Some [TypedBlock (Some "text") (Some "")]) true)
     = "".
Proof.
  destruct (@flatten_joins_nonempty_parts sample_render)
    as (Htexts & _ & _ & _ & _ & Hopaque & Hempty).
  split; [|split].
  - apply Htexts.
    + constructor; [left; reflexivity|].
      constructor; [right; reflexivity | constructor].
    + discriminate.
    + constructor; [discriminate|]. constructor; [discriminate | constructor].
  - rewrite (Hopaque (mkCallToolResult (Some [TypedBlock (Some "image") None]) false)
               [TypedBlock (Some "image") None] eq_refl).
    + reflexivity.
    + discriminate.
    + reflexivity.
  - apply (Hempty (mkCallToolResult (Some [TypedBlock (Some "text") (Some "")]) true)
             [TypedBlock (Some "text") (Some "")] eq_refl).
    + discriminate.
    + constructor; [reflexivity | constructor].
Defined.

(** C4, as stated, fails twice: a payload whose only block is a textual
    block with the empty text flattens to the empty string, and a payload
    whose only block is not textual flattens to the rendering of that
    block, not of the payload. *)
Lemma flatten_never_empty_counterexample :
  ~ (forall (R : Render) (r : CallToolResult), @_flatten_tool_result R r <> "")
  /\ ~ (forall (R : Render) (r : CallToolResult),
          has_text_block r = false ->
          @_flatten_tool_result R r = @str_result R r).
Proof.
  split.
  - intros Hclaim.
    apply (Hclaim sample_render
             (mkCallToolResult (Some [TypedBlock (Some "text") (Some "")]) false)).
    reflexivity.
  - intros Hclaim.
    specialize (Hclaim sample_render
                  (mkCallToolResult (Some [TypedBlock (Some "image") None]) false)
                  eq_refl).
    vm_compute in Hclaim. discriminate.
Qed.

(** *** Argument parsing *)

Lemma parse_arguments_nonempty `{Py.Interpreter} (s : string) :
  s <> "" ->
  parse_arguments s
  = match loads s with
    | inr v => inr v
    | inl NotJSON => inr (JObject [("_raw", JString s)])
    | inl TooDeep => inl RecursionError
    | inl TooManyDigits => inl ValueError
    end.
Proof. intros Hs. destruct s; [contradiction | reflexivity]. Qed.

(** Opening brackets are tokens one by one. *)
Lemma lex_bracket (r : string) :
  lex MDefault (String "[" r) = (TLBracket :: lex MDefault r)%list.
Proof. reflexivity. Qed.

(** The decoder gives up inside opening brackets that go deeper than the
    room it has. *)
Lemma parse_nested `{Py.Interpreter} (rest : string) (n : nat) :
  forall (p : phase) (stack : list frame),
    p = PValue \/ p = PValueOrEnd ->
    (length stack <= Py.nesting_limit)%nat ->
    (Py.nesting_limit < n + length stack)%nat ->
    parse p stack (lex MDefault (Py.times "[" n ++ rest)) = inl TooDeep.
Proof.
  induction n as [|n IH]; intros p stack Hp Hlen Hdeep; [simpl in Hdeep; lia|].
  change (Py.times "[" (S n) ++ rest) with (String "[" (Py.times "[" n ++ rest)).
  rewrite lex_bracket.
  assert (Hstep : step p stack TLBracket
                  = open_container PValueOrEnd (FArray []) stack)
    by (destruct Hp as [-> | ->]; reflexivity).
  cbn [parse]. rewrite Hstep. unfold open_container.
  destruct (S (length stack) <=? Py.nesting_limit)%nat eqn:Hroom; [|reflexivity].
  apply Nat.leb_le in Hroom.
  apply IH; [right; reflexivity | simpl; lia | simpl; lia].
Qed.

Lemma loads_nested `{Py.Interpreter} (n : nat) (rest : string) :
  (Py.nesting_limit < n)%nat -> loads (Py.times "[" n ++ rest) = inl TooDeep.
Proof.
  intros Hn. unfold loads.
  apply parse_nested; [left; reflexivity | simpl; lia | simpl; lia].
Qed.

Lemma times_nonempty (c : ascii) (n : nat) (rest : string) :
  (0 < n)%nat -> Py.times c n ++ rest <> "".
Proof. destruct n; [lia | discriminate]. Qed.

Lemma string_of_list_ascii_snoc (l : list ascii) (c : ascii) (r : string) :
  string_of_list_ascii (l ++ [c])%list ++ r = string_of_list_ascii l ++ String c r.
Proof.
  induction l as [|x l IH]; [reflexivity | exact (f_equal (String x) IH)].
Qed.

(** A digit is a number character and starts a number. *)
Lemma digit_number_char (c : ascii) : is_digit c = true -> is_number_char c = true.
Proof. intros Hc. unfold is_number_char. rewrite Hc. reflexivity. Qed.

Lemma digit_dispatch (c : ascii) :
  is_digit c = true -> dispatch c = AStart (MNumber [c]).
Proof.
  unfold dispatch, is_ws, is_digit. intros Hc.
  apply andb_true_iff in Hc. destruct Hc as [Hlo Hhi].
  apply Z.leb_le in Hlo. apply Z.leb_le in Hhi.
  repeat match goal with
         | |- context [Py.code c =? ?k] =>
             replace (Py.code c =? k) with false by (symmetry; apply Z.eqb_neq; lia)
         end.
  cbn [orb].
  replace (48 <=? Py.code c) with true by (symmetry; apply Z.leb_le; lia).
  replace (Py.code c <=? 57) with true by (symmetry; apply Z.leb_le; lia).
  reflexivity.
Qed.

(** In a number, digits go to the run. *)
Lemma lex_digits (ds : string) :
  forall acc, all_digits ds = true ->
    lex (MNumber acc) ds = number_tokens (of_rev acc ++ ds).
Proof.
  induction ds as [|c r IH]; intros acc Hds.
  - simpl. f_equal. clear. induction (of_rev acc) as [|x a IHa];
      [reflexivity | exact (f_equal (String x) IHa)].
  - simpl in Hds. apply andb_true_iff in Hds. destruct Hds as [Hc Hr].
    cbn [lex]. rewrite (digit_number_char c Hc), (IH (c :: acc) Hr).
    unfold of_rev. cbn [rev]. rewrite string_of_list_ascii_snoc. reflexivity.
Qed.

Lemma span_all_digits (s : string) :
  all_digits s = true -> span_digits s = (s, "").
Proof.
  induction s as [|c r IH]; [reflexivity|].
  simpl. intros Hs. apply andb_true_iff in Hs. destruct Hs as [Hc Hr].
  rewrite Hc, (IH Hr). reflexivity.
Qed.

(** An integer literal without a sign is one token. *)
Lemma lex_natural (s : string) :
  is_natural s = true -> lex MDefault s = [TInt false s].
Proof.
  destruct s as [|c r]; [discriminate|]. unfold is_natural. intros Hs.
  apply andb_true_iff in Hs. destruct Hs as [Hs Hr].
  apply andb_true_iff in Hs. destruct Hs as [Hc Hz].
  cbn [lex]. rewrite (digit_dispatch c Hc), (lex_digits r [c] Hr).
  change (of_rev [c] ++ r) with (String c r).
  unfold number_tokens.
  assert (Hminus : (Py.code c =? 45) = false).
  { unfold is_digit in Hc. apply andb_true_iff in Hc. destruct Hc as [Hlo _].
    apply Z.leb_le in Hlo. apply Z.eqb_neq. lia. }
  rewrite Hminus, Hc. cbn [negb]. apply negb_true_iff in Hz. rewrite Hz.
  rewrite (span_all_digits (String c r))
    by (simpl; rewrite Hc, Hr; reflexivity).
  reflexivity.
Qed.

Lemma loads_long_integer `{Py.Interpreter} (s : string) :
  is_natural s = true -> too_many_digits (String.length s) = true ->
  loads s = inl TooManyDigits.
Proof.
  intros Hs Hlong. unfold loads. rewrite (lex_natural s Hs).
  cbn [parse step start_value]. unfold int_value. rewrite Hlong. reflexivity.
Qed.

(** C3, as amended.  Parsing the arguments of a tool call replaces one
    failure of [json.loads] only: when the text is not JSON
    ([JSONDecodeError]), the arguments are the one-field mapping of
    ["_raw"] to the text (so ["{bad"] gives [{"_raw": "{bad"}]).  The
    empty text gives the empty mapping, and a text that is JSON gives the
    decoded value: what is passed to the tool call is a mapping unless
    the text is JSON for something else than an object (an array, a
    number, a string, a literal), and then it is that value.  The other two
    exceptions of [json.loads] are not caught: a text nested deeper than
    the interpreter has room for raises [RecursionError], an integer
    literal with more digits than the interpreter allows raises
    [ValueError], and then the tool is not invoked, no message is appended
    and the exception leaves the loop over the tool calls. *)
Theorem parse_arguments_fallback :
  (forall (I : Py.Interpreter) s, s <> "" -> loads s = inl NotJSON ->
      parse_arguments s = inr (JObject [("_raw", JString s)]))
  /\ (forall I : Py.Interpreter,
      parse_arguments "{bad" = inr (JObject [("_raw", JString "{bad")]))
  /\ (forall I : Py.Interpreter, parse_arguments "" = inr (JObject []))
  /\ (forall (I : Py.Interpreter) s v,
      s <> "" -> loads s = inr v -> parse_arguments s = inr v)
  /\ (forall (I : Py.Interpreter) s,
      (exists v, parse_arguments s = inr v /\ is_dict v = true) \/
      (exists v, s <> "" /\ loads s = inr v /\ is_dict v = false /\
                 parse_arguments s = inr v) \/
      (loads s = inl TooDeep /\ parse_arguments s = inl RecursionError) \/
      (loads s = inl TooManyDigits /\ parse_arguments s = inl ValueError))
  /\ (forall (I : Py.Interpreter) n rest,
      (Py.nesting_limit < n)%nat ->
      parse_arguments (Py.times "[" n ++ rest) = inl RecursionError)
  /\ (forall (I : Py.Interpreter) s,
      is_natural s = true -> too_many_digits (String.length s) = true ->
      parse_arguments s = inl ValueError)
  /\ (forall W (P : Peers W) tc rest (st : State W) e,
      parse_arguments (tc_arguments tc) = inl e ->
      dispatch_tool_calls (tc :: rest) st = (inl e, st))
  /\ (forall W (P : Peers W) tc (st : State W) args,
      parse_arguments (tc_arguments tc) = inr args ->
      exists rest,
        trace (snd (dispatch_tool_call tc st))
        = (trace st ++ CallTool (tc_name tc) args :: rest)%list).
Proof.
  split; [|split; [|split; [|split; [|split; [|split; [|split; [|split]]]]]]].
  - intros I s Hs Hnone. rewrite (parse_arguments_nonempty _ Hs), Hnone. reflexivity.
  - intros I. reflexivity.
  - intros I. reflexivity.
  - intros I s v Hs Hv. rewrite (parse_arguments_nonempty _ Hs), Hv. reflexivity.
  - intros I s. destruct s as [|c s]; [left; exists (JObject []); split; reflexivity|].
    rewrite parse_arguments_nonempty by discriminate.
    destruct (loads (String c s)) as [[| |]|v] eqn:Hv.
    + left. eexists. split; reflexivity.
    + right. right. left. split; reflexivity.
    + right. right. right. split; reflexivity.
    + destruct (is_dict v) eqn:Hd.
      * left. exists v. split; [reflexivity | exact Hd].
      * right. left. exists v. repeat split; [discriminate | exact Hd].
  - intros I n rest Hn.
    rewrite parse_arguments_nonempty by (apply times_nonempty; lia).
    rewrite (loads_nested n rest Hn). reflexivity.
  - intros I s Hs Hlong.
    rewrite parse_arguments_nonempty by (destruct s; discriminate).
    rewrite (loads_long_integer s Hs Hlong). reflexivity.
  - intros W P tc rest st e He.
    cbn [dispatch_tool_calls]. unfold dispatch_tool_call, bind, lift.
    rewrite He. reflexivity.
  - intros W P tc st args Hargs.
    unfold dispatch_tool_call, bind, lift, log, peer. rewrite Hargs. simpl.
    destruct (call_tool _ _ _) as [[e|r] w]; simpl; exists []; reflexivity.
Qed.

(** C3 under CPython 3.11: a text cut in the middle of an object,
    [{"a":1}], 995 opening brackets, and an integer of 4301 digits. *)
Lemma parse_arguments_fallback_witness :
  @parse_arguments Py.cpython_311 ("{" ++ Py.quoted "title" ++ ": ")
  = inr (JObject [("_raw", JString ("{" ++ Py.quoted "title" ++ ": "))])
  /\ @parse_arguments Py.cpython_311 a1_arguments = inr (JObject [("a", JInt 1)])
  /\ @parse_arguments Py.cpython_311 (Py.times "[" 995 ++ "]") = inl RecursionError
  /\ @parse_arguments Py.cpython_311 (Py.times "7" 4301) = inl ValueError.
Proof.
  destruct parse_arguments_fallback
    as (Hraw & _ & _ & Hval & _ & Hdeep & Hlong & _).
  split; [|split; [|split]].
  - apply Hraw; [discriminate | vm_compute; reflexivity].
  - apply Hval; [discriminate | vm_compute; reflexivity].
  - apply Hdeep. apply Nat.ltb_lt. vm_compute. reflexivity.
  - apply Hlong; vm_compute; reflexivity.
Defined.

(** C3, as stated, fails twice.  The text ["[1]"] is JSON for a list, and
    the list is what the tool call gets.  And parsing can raise: when the
    model asks for a tool with 995 opening brackets as arguments, the
    process ends with [RecursionError] uncaught, no tool invoked and no
    tool message in the transcript. *)
Lemma parse_arguments_mapping_counterexample :
  ~ (forall (I : Py.Interpreter) s,
       exists v, parse_arguments s = inr v /\ is_dict v = true)
  /\ @parse_arguments Py.cpython_311 "[1]" = inr (JArray [JInt 1])
  /\ @parse_arguments Py.cpython_311 (tc_arguments nested_call) = inl RecursionError
  /\ exists st,
       @main Script scripted_peers ["client.py"; "server.py"] ["cancel it"] nested_script
       = (Uncaught RecursionError, st)
       /\ List.filter (fun m => match m with ToolMessage _ _ _ => true | _ => false end)
            (messages st) = []
       /\ List.filter (fun e => match e with CallTool _ _ => true | _ => false end)
            (trace st) = [].
Proof.
  split; [|split; [reflexivity|split; [vm_compute; reflexivity|]]].
  - intros Hclaim. destruct (Hclaim Py.cpython_311 "[1]") as (v & Hv & Hd).
    vm_compute in Hv. injection Hv as <-. discriminate.
  - eexists. split; [vm_compute; reflexivity|]. split; reflexivity.
Qed.

(** *** The conversation driver *)

Section DriverProps.
Context {W : Type} {P : Peers W}.

Local Open Scope list_scope.

(** The state after [e] has been logged. *)
Local Abbreviation logged st e :=
  (mkState (messages st) (world st) (trace st ++ [e])).

Lemma dispatch_tool_call_returns (tc : ToolCall) (st : State W) args r w :
  parse_arguments (tc_arguments tc) = inr args ->
  call_tool (tc_name tc) args (world st) = (inr r, w) ->
  dispatch_tool_call tc st
  = (inr tt,
     mkState
       (messages st ++ [ToolMessage (tc_id tc) (tc_name tc) (_flatten_tool_result r)])
       w
       (trace st ++ [CallTool (tc_name tc) args])).
Proof.
  intros Hargs Hcall.
  unfold dispatch_tool_call, bind, lift, log, peer, append_message.
  rewrite Hargs. simpl. rewrite Hcall. reflexivity.
Qed.

Lemma dispatch_tool_call_raises (tc : ToolCall) (st : State W) args e w :
  parse_arguments (tc_arguments tc) = inr args ->
  call_tool (tc_name tc) args (world st) = (inl e, w) ->
  dispatch_tool_call tc st
  = (inl e,
     mkState (messages st) w
       (trace st ++ [CallTool (tc_name tc) args])).
Proof.
  intros Hargs Hcall.
  unfold dispatch_tool_call, bind, lift, log, peer, append_message.
  rewrite Hargs. simpl. rewrite Hcall. reflexivity.
Qed.

(** When decoding the arguments raises, nothing else happens. *)
Lemma dispatch_tool_call_undecoded (tc : ToolCall) (st : State W) e :
  parse_arguments (tc_arguments tc) = inl e ->
  dispatch_tool_call tc st = (inl e, st).
Proof.
  intros Hargs. unfold dispatch_tool_call, bind, lift. rewrite Hargs. reflexivity.
Qed.

Lemma dispatch_tool_calls_cons (tc : ToolCall) (rest : list ToolCall) (st : State W) :
  dispatch_tool_calls (tc :: rest) st
  = match dispatch_tool_call tc st with
    | (inl e, st') => (inl e, st')
    | (inr _, st') => dispatch_tool_calls rest st'
    end.
Proof. reflexivity. Qed.

Lemma rounds_S (groq_tools : list GroqTool) (n : nat) (st : State W) :
  rounds groq_tools (S n) st
  = let st1 := logged st (ModelCall (messages st) groq_tools) in
    match create (messages st) groq_tools (world st) with
    | (inl e, w) => (inl e, mkState (messages st) w (trace st1))
    | (inr msg, w) =>
        match requested msg with
        | [] =>
            (inr tt,
             mkState (messages st) w
               (trace st1 ++
                [PrintLine (Py.LF ++ Py.strip (Py.str_or (msg_content msg) "") ++ Py.LF)%string]))
        | tc :: tcs =>
            match dispatch_tool_calls (tc :: tcs)
                    (mkState
                       (messages st ++
                        [AssistantMessage (Py.str_or (msg_content msg) "") (tc :: tcs)])
                       w (trace st1)) with
            | (inl e, st2) => (inl e, st2)
            | (inr _, st2) => rounds groq_tools n st2
            end
        end
    end.
Proof.
  simpl. unfold bind, get_messages, log, peer, append_message. simpl.
  destruct (create _ _ _) as [[e|msg] w]; simpl; [reflexivity|].
  destruct (requested msg) as [|tc tcs]; reflexivity.
Qed.

(** What the loop over the tool calls of one round appends: answers to the
    calls in order, to all of them if it returns and to the first ones if
    a call raises; and no completion is asked for, nothing is printed. *)
Lemma dispatch_tool_calls_shape (tcs : list ToolCall) (st : State W) :
  exists ms tr,
    messages (snd (dispatch_tool_calls tcs st)) = messages st ++ ms /\
    trace (snd (dispatch_tool_calls tcs st)) = trace st ++ tr /\
    model_calls tr = 0%nat /\
    List.filter is_print_line tr = [] /\
    List.filter is_assistant ms = [] /\
    match fst (dispatch_tool_calls tcs st) with
    | inr _ => Forall2 answers tcs ms
    | inl _ => exists n, (n < length tcs)%nat /\ Forall2 answers (firstn n tcs) ms
    end.
Proof.
  revert st. induction tcs as [|tc tcs IH]; intros st.
  - exists [], []. simpl. rewrite !app_nil_r. repeat split. constructor.
  - rewrite dispatch_tool_calls_cons.
    destruct (parse_arguments (tc_arguments tc)) as [e|args] eqn:Hargs.
    { rewrite (dispatch_tool_call_undecoded _ _ _ Hargs). simpl.
      exists [], []. rewrite !app_nil_r. repeat split.
      exists 0%nat. split; [simpl; lia | constructor]. }
    destruct (call_tool (tc_name tc) args (world st)) as [[e|r] w] eqn:Hcall.
    + rewrite (dispatch_tool_call_raises _ _ _ _ _ Hargs Hcall). simpl.
      exists [], [CallTool (tc_name tc) args].
      rewrite app_nil_r. repeat split.
      exists 0%nat. split; [simpl; lia | constructor].
    + rewrite (dispatch_tool_call_returns _ _ _ _ _ Hargs Hcall).
      match goal with |- context [dispatch_tool_calls tcs ?s] =>
        destruct (IH s) as (ms & tr & Hm & Ht & Hc & Hp & Ha & Hshape) end.
      simpl in Hm, Ht.
      exists (ToolMessage (tc_id tc) (tc_name tc) (_flatten_tool_result r) :: ms),
             (CallTool (tc_name tc) args :: tr).
      rewrite Hm, Ht, <- !app_assoc. simpl.
      repeat split; try assumption.
      destruct (fst (dispatch_tool_calls tcs _)).
      * destruct Hshape as (n & Hn & Hpre). exists (S n).
        split; [simpl; lia|]. simpl. constructor; [eexists; reflexivity | exact Hpre].
      * constructor; [eexists; reflexivity | exact Hshape].
Qed.

Lemma model_calls_app (tr1 tr2 : list Event) :
  model_calls (tr1 ++ tr2) = (model_calls tr1 + model_calls tr2)%nat.
Proof. unfold model_calls. rewrite List.filter_app, length_app. reflexivity. Qed.

(** What the rounds of a turn append and do. *)
Lemma rounds_shape (groq_tools : list GroqTool) (n : nat) (st : State W) :
  exists ms tr,
    messages (snd (rounds groq_tools n st)) = messages st ++ ms /\
    trace (snd (rounds groq_tools n st)) = trace st ++ tr /\
    (model_calls tr <= n)%nat /\
    turn_blocks (returned (fst (rounds groq_tools n st))) ms.
Proof.
  revert st. induction n as [|n IH]; intros st.
  - exists [], []. simpl. rewrite !app_nil_r. repeat split; [cbn; lia | constructor].
  - rewrite rounds_S. cbv zeta.
    destruct (create (messages st) groq_tools (world st)) as [[e|msg] w].
    + exists [], [ModelCall (messages st) groq_tools]. simpl.
      rewrite app_nil_r. repeat split; [cbn; lia | constructor].
    + destruct (requested msg) as [|tc tcs] eqn:Hreq.
      * exists [], [ModelCall (messages st) groq_tools;
                    PrintLine (Py.LF ++ Py.strip (Py.str_or (msg_content msg) "") ++ Py.LF)%string].
        simpl. rewrite app_nil_r, <- app_assoc. repeat split; [cbn; lia | constructor].
      * match goal with |- context [dispatch_tool_calls (tc :: tcs) ?s] =>
          destruct (dispatch_tool_calls_shape (tc :: tcs) s)
            as (ms1 & tr1 & Hm1 & Ht1 & Hc1 & _ & _ & Hshape);
          destruct (dispatch_tool_calls (tc :: tcs) s) as [[e|[]] st2] end;
        simpl in Hm1, Ht1, Hshape.
        -- exists (AssistantMessage (Py.str_or (msg_content msg) "") (tc :: tcs) :: ms1),
                  (ModelCall (messages st) groq_tools :: tr1).
           simpl. rewrite Hm1, Ht1, <- !app_assoc. simpl.
           repeat split.
           ++ change (ModelCall (messages st) groq_tools :: tr1)
                with ([ModelCall (messages st) groq_tools] ++ tr1).
              rewrite model_calls_app, Hc1. cbn. lia.
           ++ destruct Hshape as (k & Hk & Hpre).
              apply (tb_cut false _ _ _ k); [reflexivity | exact Hk | exact Hpre].
        -- destruct (IH st2) as (ms2 & tr2 & Hm2 & Ht2 & Hc2 & Hblocks).
           exists (AssistantMessage (Py.str_or (msg_content msg) "") (tc :: tcs)
                     :: ms1 ++ ms2),
                  (ModelCall (messages st) groq_tools :: tr1 ++ tr2).
           rewrite Hm2, Ht2, Hm1, Ht1, <- !app_assoc. simpl.
           repeat split.
           ++ change (ModelCall (messages st) groq_tools :: tr1 ++ tr2)
                with ([ModelCall (messages st) groq_tools] ++ tr1 ++ tr2).
              rewrite !model_calls_app, Hc1. cbn. lia.
           ++ apply tb_round; [discriminate | exact Hshape | exact Hblocks].
Qed.

Lemma user_turn_eq (groq_tools : list GroqTool) (user : string) (st : State W) :
  user_turn groq_tools user st
  = rounds groq_tools 5
      (mkState (messages st ++ [UserMessage user]) (world st) (trace st)).
Proof. reflexivity. Qed.


Lemma dispatch_tool_calls_returns (tcs : list ToolCall) (st : State W) :
  never_raises P ->
  Forall (fun tc => returned (parse_arguments (tc_arguments tc)) = true) tcs ->
  fst (dispatch_tool_calls tcs st) = inr tt.
Proof.
  intros [_ Hcall] Hdec. revert st.
  induction Hdec as [|tc tcs Htc _ IH]; intros st.
  - reflexivity.
  - rewrite dispatch_tool_calls_cons.
    destruct (parse_arguments (tc_arguments tc)) as [e|args] eqn:Hargs;
      [discriminate|].
    specialize (Hcall (tc_name tc) args (world st)).
    destruct (call_tool (tc_name tc) args (world st))
      as [[e|r] w] eqn:Hc; [discriminate|].
    rewrite (dispatch_tool_call_returns _ _ _ _ _ Hargs Hc). apply IH.
Qed.

Lemma rounds_returns (groq_tools : list GroqTool) (n : nat) (st : State W) :
  never_raises P -> arguments_decode P -> fst (rounds groq_tools n st) = inr tt.
Proof.
  intros Hnr Hdec. revert st. induction n as [|n IH]; intros st; [reflexivity|].
  rewrite rounds_S. cbv zeta.
  pose proof (proj1 Hnr (messages st) groq_tools (world st)) as Hret.
  destruct (create (messages st) groq_tools (world st)) as [[e|msg] w] eqn:Hcreate;
    [discriminate|].
  assert (Hall : Forall (fun tc => returned (parse_arguments (tc_arguments tc)) = true)
                   (requested msg))
    by (apply List.Forall_forall; intros tc Hin; exact (Hdec _ _ _ _ _ _ Hcreate Hin)).
  destruct (requested msg) as [|tc tcs]; [reflexivity|].
  match goal with |- context [dispatch_tool_calls (tc :: tcs) ?s] =>
    pose proof (dispatch_tool_calls_returns (tc :: tcs) s Hnr Hall) as Hd;
    destruct (dispatch_tool_calls (tc :: tcs) s) as [[e|[]] st2] end;
    [discriminate | apply IH].
Qed.



Lemma chat_loop_cons (groq_tools : list GroqTool) (line : string)
    (rest : list string) (st : State W) :
  chat_loop groq_tools (line :: rest) st
  = if is_quit (Py.strip line) then (inr tt, logged st (Prompt "> "))
    else
      match user_turn groq_tools (Py.strip line) (logged st (Prompt "> ")) with
      | (inl e, st') => (inl e, st')
      | (inr _, st') => chat_loop groq_tools rest st'
      end.
Proof.
  simpl. unfold bind at 1. simpl.
  destruct (is_quit (Py.strip line)); reflexivity.
Qed.

Lemma run_client_connected (server_path : string) (stdin : list string)
    (st : State W) tools w1 w2 :
  connect server_path (world st) = (inr tools, w1) ->
  groq_client w1 = (inr tt, w2) ->
  run_client server_path stdin st
  = chat_loop (_convert_mcp_tools_to_groq tools) stdin
      (mkState (messages st ++ [SystemMessage system_prompt]) w2
         (trace st ++
          [PrintTools (map gt_name (_convert_mcp_tools_to_groq tools));
           PrintLine banner1; PrintLine banner2])).
Proof.
  intros Hc Hg. unfold run_client, bind, peer, log, append_message. simpl.
  rewrite Hc. simpl. rewrite Hg. simpl. rewrite <- !app_assoc. reflexivity.
Qed.

(** C5, as amended.  A tool invocation that returns a result, be it an
    error result of the peer, gives a tool message whose content is the
    flattened result, and the loop goes on with the next call; a round
    whose invocations all returned is followed by the next round.  An
    exception is never turned into transcript content: raised by an
    invocation or by a completion it ends the round and the turn, raised
    in a turn it ends the loop, and raised by discovery or anywhere during
    the session it ends the process uncaught. *)
Theorem failures_surface_or_propagate :
  (forall tc rest st args r w,
      parse_arguments (tc_arguments tc) = inr args ->
      call_tool (tc_name tc) args (world st) = (inr r, w) ->
      dispatch_tool_calls (tc :: rest) st
      = dispatch_tool_calls rest
          (mkState
             (messages st ++
              [ToolMessage (tc_id tc) (tc_name tc) (_flatten_tool_result r)])
             w
             (trace st ++ [CallTool (tc_name tc) args])))
  /\ (forall groq_tools n st msg w st2,
      create (messages st) groq_tools (world st) = (inr msg, w) ->
      requested msg <> [] ->
      dispatch_tool_calls (requested msg)
        (mkState
           (messages st ++
            [AssistantMessage (Py.str_or (msg_content msg) "") (requested msg)])
           w (trace st ++ [ModelCall (messages st) groq_tools]))
      = (inr tt, st2) ->
      rounds groq_tools (S n) st = rounds groq_tools n st2)
  /\ (forall tc rest st args e w,
      parse_arguments (tc_arguments tc) = inr args ->
      call_tool (tc_name tc) args (world st) = (inl e, w) ->
      dispatch_tool_calls (tc :: rest) st
      = (inl e,
         mkState (messages st) w
           (trace st ++ [CallTool (tc_name tc) args])))
  /\ (forall groq_tools n st e w,
      create (messages st) groq_tools (world st) = (inl e, w) ->
      rounds groq_tools (S n) st
      = (inl e, mkState (messages st) w
                  (trace st ++ [ModelCall (messages st) groq_tools])))
  /\ (forall groq_tools n st msg w e st2,
      create (messages st) groq_tools (world st) = (inr msg, w) ->
      requested msg <> [] ->
      dispatch_tool_calls (requested msg)
        (mkState
           (messages st ++
            [AssistantMessage (Py.str_or (msg_content msg) "") (requested msg)])
           w (trace st ++ [ModelCall (messages st) groq_tools]))
      = (inl e, st2) ->
      rounds groq_tools (S n) st = (inl e, st2))
  /\ (forall groq_tools line rest st e st',
      is_quit (Py.strip line) = false ->
      user_turn groq_tools (Py.strip line) (logged st (Prompt "> ")) = (inl e, st') ->
      chat_loop groq_tools (line :: rest) st = (inl e, st'))
  /\ (forall prog server_path more stdin w e st,
      run_client server_path stdin (mkState [] w []) = (inl e, st) ->
      main (prog :: server_path :: more) stdin w = (Uncaught e, st))
  /\ (forall prog server_path more stdin w e w1,
      connect server_path w = (inl e, w1) ->
      main (prog :: server_path :: more) stdin w = (Uncaught e, mkState [] w1 [])).
Proof.
  split; [|split; [|split; [|split; [|split; [|split; [|split]]]]]].
  - intros tc rest st args r w Hargs Hc.
    rewrite dispatch_tool_calls_cons, (dispatch_tool_call_returns _ _ _ _ _ Hargs Hc).
    reflexivity.
  - intros groq_tools n st msg w st2 Hc Hne Hd.
    rewrite rounds_S. cbv zeta. rewrite Hc.
    destruct (requested msg) as [|tc tcs]; [contradiction|].
    simpl in Hd |- *. rewrite Hd. reflexivity.
  - intros tc rest st args e w Hargs Hc.
    rewrite dispatch_tool_calls_cons, (dispatch_tool_call_raises _ _ _ _ _ Hargs Hc).
    reflexivity.
  - intros groq_tools n st e w Hc. rewrite rounds_S. cbv zeta. rewrite Hc.
    reflexivity.
  - intros groq_tools n st msg w e st2 Hc Hne Hd.
    rewrite rounds_S. cbv zeta. rewrite Hc.
    destruct (requested msg) as [|tc tcs]; [contradiction|].
    simpl in Hd |- *. rewrite Hd. reflexivity.
  - intros groq_tools line rest st e st' Hq Hturn.
    rewrite chat_loop_cons, Hq, Hturn. reflexivity.
  - intros prog server_path more stdin w e st Hrun. unfold main.
    rewrite Hrun. reflexivity.
  - intros prog server_path more stdin w e w1 Hc.
    unfold main, run_client, bind, peer. simpl. rewrite Hc. reflexivity.
Qed.

(** C6.  The model first asks for the one tool [X] with the arguments
    [{"a":1}], the tool returns, and the model then answers with a text
    and no tool call.  The turn returns; it has appended the user message,
    the assistant message with the call and exactly one tool message, for
    [X] with the id of the call; the tool got the mapping of ["a"] to 1;
    and the one thing printed is the text of the answer without the
    whitespace around it, between two line feeds: for the text ["done"],
    the line [done]. *)
Theorem one_tool_then_answer
    (groq_tools : list GroqTool) (user : string) (st : State W)
    (id type : string) (text1 : option string) (result : CallToolResult)
    (answer : ChatMessage) (final : string) (w1 w2 w3 : W) :
  let call := mkToolCall id type "X" a1_arguments in
  let asked := messages st ++ [UserMessage user] in
  let answered :=
    asked ++ [AssistantMessage (Py.str_or text1 "") [call];
              ToolMessage id "X" (_flatten_tool_result result)] in
  create asked groq_tools (world st)
    = (inr (mkChatMessage text1 (Some [call])), w1) ->
  call_tool "X" (JObject [("a", JInt 1)]) w1 = (inr result, w2) ->
  create answered groq_tools w2 = (inr answer, w3) ->
  requested answer = [] ->
  msg_content answer = Some final ->
  user_turn groq_tools user st
  = (inr tt,
     mkState answered w3
       (trace st ++
        [ModelCall asked groq_tools;
         CallTool "X" (JObject [("a", JInt 1)]);
         ModelCall answered groq_tools;
         PrintLine (Py.LF ++ Py.strip final ++ Py.LF)%string]))
  /\ (final = "done" ->
      Py.LF ++ Py.strip final ++ Py.LF = Py.LF ++ "done" ++ Py.LF)%string.
Proof.
  intros call asked answered Hc1 Htool Hc2 Hreq Hfinal.
  split; [|intros ->; reflexivity].
  assert (Hr : requested (mkChatMessage text1 (Some [call])) = [call])
    by reflexivity.
  assert (Hargs : parse_arguments (tc_arguments call)
                  = inr (JObject [("a", JInt 1)]))
    by reflexivity.
  assert (Hs : Py.str_or (Some final) "" = final) by (destruct final; reflexivity).
  rewrite user_turn_eq, rounds_S. cbv zeta. cbn [messages world trace].
  fold asked. rewrite Hc1, Hr. cbv iota. cbn [msg_content].
  rewrite dispatch_tool_calls_cons.
  erewrite (dispatch_tool_call_returns call _ _ _ _ Hargs);
    [|cbn [world tc_name call]; exact Htool].
  cbn [dispatch_tool_calls ret messages world trace tc_id tc_name call].
  rewrite rounds_S. cbv zeta. cbn [messages world trace].
  replace ((asked ++ [AssistantMessage (Py.str_or text1 "") [call]]) ++
           [ToolMessage id "X" (_flatten_tool_result result)])
    with answered by (unfold answered; rewrite <- app_assoc; reflexivity).
  rewrite Hc2, Hreq, Hfinal, Hs, <- !app_assoc. reflexivity.
Qed.

(** C8.  When the loop reads a line that is [quit] or [exit] once trimmed
    and lowered, it returns at once, from any state: nothing is appended to
    the transcript, the world is not touched, no completion is asked for
    and no tool is called.  This is so for [quit] and [exit] in any casing
    and with any ASCII whitespace around.  A session that returns gives exit
    status 0, so a session whose first line is such a line ends with status
    0 after the banner.  With no argument after the program name, the
    script prints the usage line and exits with status 1. *)
Theorem quit_and_usage :
  (forall groq_tools line rest st,
      Py.lower (Py.strip line) = "quit" \/ Py.lower (Py.strip line) = "exit" ->
      chat_loop groq_tools (line :: rest) st = (inr tt, logged st (Prompt "> ")))
  /\ (forall prog server_path more stdin w st,
      run_client server_path stdin (mkState [] w []) = (inr tt, st) ->
      main (prog :: server_path :: more) stdin w = (Exit 0, st))
  /\ (forall prog server_path more line rest w tools w1 w2,
      connect server_path w = (inr tools, w1) ->
      groq_client w1 = (inr tt, w2) ->
      Py.lower (Py.strip line) = "quit" \/ Py.lower (Py.strip line) = "exit" ->
      main (prog :: server_path :: more) (line :: rest) w
      = (Exit 0,
         mkState [SystemMessage system_prompt] w2
           [PrintTools (map gt_name (_convert_mcp_tools_to_groq tools));
            PrintLine banner1; PrintLine banner2; Prompt "> "]))
  /\ (forall argv stdin w,
      (length argv < 2)%nat ->
      main argv stdin w = (Exit 1, mkState [] w [PrintLine usage]))
  /\ (forall groq_tools pre word post rest st,
      Py.blank pre -> Py.blank post ->
      Py.caseless word "quit" \/ Py.caseless word "exit" ->
      chat_loop groq_tools ((pre ++ word ++ post)%string :: rest) st
      = (inr tt, logged st (Prompt "> "))).
Proof.
  assert (Hquit : forall groq_tools line rest st,
             Py.lower (Py.strip line) = "quit" \/ Py.lower (Py.strip line) = "exit" ->
             chat_loop groq_tools (line :: rest) st
             = (inr tt, logged st (Prompt "> "))).
  { intros groq_tools line rest st Hq. rewrite chat_loop_cons.
    unfold is_quit. destruct Hq as [-> | ->]; reflexivity. }
  split; [exact Hquit|]. split; [|split; [|split]].
  - intros prog server_path more stdin w st Hrun. unfold main.
    rewrite Hrun. reflexivity.
  - intros prog server_path more line rest w tools w1 w2 Hc Hg Hq. unfold main.
    rewrite (run_client_connected server_path (line :: rest) (mkState [] w [])
               tools w1 w2 Hc Hg).
    rewrite (Hquit _ _ _ _ Hq). reflexivity.
  - intros argv stdin w Hlen. unfold main.
    destruct argv as [|a [|b argv]]; simpl in Hlen; try lia; reflexivity.
  - intros groq_tools pre word post rest st Hpre Hpost Hword.
    apply Hquit. apply PyProps.padded_command; assumption.
Qed.

End DriverProps.

Lemma eager_never_raises : never_raises eager_peers.
Proof. split; intros; reflexivity. Qed.

Lemma eager_arguments_decode : arguments_decode eager_peers.
Proof.
  intros ms ts w m w' tc Hc Hin. injection Hc as <- _.
  destruct Hin as [<-|[]]. vm_compute. reflexivity.
Qed.




Local Open Scope list_scope.

(** C5 on a server that reports a failure in its result, on a server
    whose call raises, and on a server that cannot be reached. *)
Lemma failures_surface_or_propagate_witness :
  @dispatch_tool_calls Script scripted_peers [cancel_call]
    (mkState [] failing_script [])
  = (inr tt,
     mkState
       [ToolMessage "call_7" "cancel_event"
          "Error executing tool cancel_event: not found"]
       (mkScript (discovery failing_script) (completions failing_script) [])
       [CallTool "cancel_event" (JObject [("event_id", JString "abc")])])
  /\ @dispatch_tool_calls Script scripted_peers [cancel_call]
       (mkState [] raising_script [])
     = (inl (McpError "tools/call" "Connection closed"),
        mkState []
          (mkScript (discovery raising_script) (completions raising_script) [])
          [CallTool "cancel_event" (JObject [("event_id", JString "abc")])])
  /\ @main Script scripted_peers ["client.py"; "server.py"] ["cancel abc"]
       (mkScript (inl (McpError "initialize" "Connection closed")) [] [])
     = (Uncaught (McpError "initialize" "Connection closed"),
        mkState [] (mkScript (inl (McpError "initialize" "Connection closed")) [] []) []).
Proof.
  destruct (@failures_surface_or_propagate Script scripted_peers)
    as (Hres & _ & Hraise & _ & _ & _ & _ & Hdisc).
  split; [|split].
  - rewrite (Hres cancel_call [] (mkState [] failing_script [])
               (JObject [("event_id", JString "abc")]) error_result
               (mkScript (discovery failing_script) (completions failing_script) [])
               eq_refl eq_refl).
    reflexivity.
  - apply (Hraise cancel_call [] (mkState [] raising_script [])); reflexivity.
  - apply Hdisc. reflexivity.
Defined.

(** C5, as stated, fails on its second part: discovery succeeds, the model
    asks for [cancel_event], the invocation raises, and the process ends
    with that exception uncaught; the transcript holds no tool message for
    the call. *)
Lemma invocation_exception_counterexample :
  discovery raising_script = inr [mkTool "cancel_event" None None None]
  /\ exists st,
      @main Script scripted_peers ["client.py"; "server.py"] ["cancel abc"; "quit"]
        raising_script
      = (Uncaught (McpError "tools/call" "Connection closed"), st)
      /\ messages st
         = [SystemMessage system_prompt; UserMessage "cancel abc";
            AssistantMessage "" [cancel_call]]
      /\ abandoned cancel_call (messages st).
Proof.
  split; [reflexivity|]. eexists. split; [vm_compute; reflexivity|].
  split; [reflexivity|].
  intros (m & Hin & text & ->). simpl in Hin.
  destruct Hin as [Hm | [Hm | [Hm | []]]]; discriminate.
Qed.


(** C6 on the scripted model that asks for [X] with [{"a":1}] and then
    says [done]. *)
Lemma one_tool_then_answer_witness :
  @user_turn Script scripted_peers [] "go"
    (mkState [SystemMessage system_prompt] done_script [])
  = (inr tt,
     mkState
       [SystemMessage system_prompt; UserMessage "go";
        AssistantMessage "" [mkToolCall "call_1" "function" "X" a1_arguments];
        ToolMessage "call_1" "X" "1"]
       (mkScript (discovery done_script) [] [])
       [ModelCall [SystemMessage system_prompt; UserMessage "go"] [];
        CallTool "X" (JObject [("a", JInt 1)]);
        ModelCall
          [SystemMessage system_prompt; UserMessage "go";
           AssistantMessage "" [mkToolCall "call_1" "function" "X" a1_arguments];
           ToolMessage "call_1" "X" "1"] [];
        PrintLine (Py.LF ++ "done" ++ Py.LF)%string]).
Proof.
  exact (proj1 (@one_tool_then_answer Script scripted_peers [] "go"
                  (mkState [SystemMessage system_prompt] done_script [])
                  "call_1" "function" None (text_result "1")
                  (mkChatMessage (Some "done") None) "done"
                  (mkScript (discovery done_script)
                     [inr (mkChatMessage (Some "done") None)]
                     [inr (text_result "1")])
                  (mkScript (discovery done_script)
                     [inr (mkChatMessage (Some "done") None)] [])
                  (mkScript (discovery done_script) [] [])
                  eq_refl eq_refl eq_refl eq_refl eq_refl)).
Defined.

(** C8 on a padded [QuIt], on [EXIT] as the first line of a session, on
    a command line without argument and on a padded [eXIT]. *)
Lemma quit_and_usage_witness :
  @chat_loop Script scripted_peers [] ["  QuIt "; "never read"]
    (mkState [SystemMessage system_prompt] done_script [])
  = (inr tt, mkState [SystemMessage system_prompt] done_script [Prompt "> "])
  /\ @main Script scripted_peers ["client.py"; "server.py"] ["EXIT"] done_script
     = (Exit 0,
        mkState [SystemMessage system_prompt] done_script
          [PrintTools ["X"]; PrintLine banner1; PrintLine banner2; Prompt "> "])
  /\ @main Script scripted_peers ["client.py"] ["quit"] done_script
     = (Exit 1, mkState [] done_script [PrintLine usage])
  /\ @chat_loop Script scripted_peers [] [(" " ++ "eXIT" ++ Py.LF)%string]
       (mkState [SystemMessage system_prompt] done_script [])
     = (inr tt, mkState [SystemMessage system_prompt] done_script [Prompt "> "]).
Proof.
  destruct (@quit_and_usage Script scripted_peers)
    as (Hquit & _ & Hmain & Husage & Hpad).
  split; [|split; [|split]].
  - apply (Hquit [] "  QuIt " ["never read"]
             (mkState [SystemMessage system_prompt] done_script [])).
    left. vm_compute. reflexivity.
  - apply (Hmain "client.py" "server.py" [] "EXIT" [] done_script
             [mkTool "X" None None None] done_script done_script).
    + reflexivity.
    + reflexivity.
    + right. vm_compute. reflexivity.
  - apply Husage. simpl. lia.
  - apply (Hpad [] " " "eXIT" Py.LF []
             (mkState [SystemMessage system_prompt] done_script [])).
    + constructor; [do 5 right; left; reflexivity | constructor].
    + constructor; [right; left; reflexivity | constructor].
    + right.
      constructor; [left; reflexivity|].
      constructor; [right; split; [vm_compute; split; discriminate | reflexivity]|].
      constructor; [right; split; [vm_compute; split; discriminate | reflexivity]|].
      constructor; [right; split; [vm_compute; split; discriminate | reflexivity]|].
      constructor.
Defined.

End ClientProps.

(** ** The to-do service over time *)

Module TodoRunsProps.
Import Todo TodoRuns.

Local Open Scope list_scope.

Lemma build_subtasks_spec (scs : list SubtaskCreate) (st : Store) :
  TASKS (snd (build_subtasks scs st)) = TASKS st /\
  task_id_seq (snd (build_subtasks scs st)) = task_id_seq st /\
  subtask_id_seq (snd (build_subtasks scs st))
  = subtask_id_seq st + Z.of_nat (length scs) /\
  forall n : nat,
    fst (build_subtasks scs st) !! n
    = make_subtask (subtask_id_seq st + 1 + Z.of_nat n) <$> scs !! n.
Proof.
  revert st. induction scs as [|sc scs IH]; intros st.
  - simpl. split; [reflexivity|]. split; [reflexivity|]. split; [lia|].
    intros n. reflexivity.
  - simpl.
    specialize (IH (snd (_next_subtask_id st))).
    destruct (build_subtasks scs (snd (_next_subtask_id st))) as [subs st2] eqn:E.
    unfold _next_subtask_id in E. simpl in E. rewrite E. simpl in *.
    destruct IH as (HT & Ht & Hs & Hn).
    split; [exact HT|]. split; [exact Ht|]. split; [lia|].
    intros [|n]; simpl.
    + do 2 f_equal. lia.
    + rewrite Hn. destruct (scs !! n); simpl; [|reflexivity].
      do 2 f_equal. lia.
Qed.

Lemma mutate_first_insert (sid : Z) (f : Subtask -> Subtask) (subs : list Subtask) s0 :
  find_subtask sid subs = Some s0 ->
  exists p : nat,
    subs !! p = Some s0 /\ sub_id s0 = sid /\
    (forall (q : nat) s, (q < p)%nat -> subs !! q = Some s -> sub_id s <> sid) /\
    mutate_first sid f subs = <[p := f s0]> subs.
Proof.
  unfold find_subtask. induction subs as [|s subs IH]; simpl; [discriminate|].
  destruct (Z.eqb_spec (sub_id s) sid) as [Heq|Hne].
  - intros [= <-]. exists 0%nat.
    split; [reflexivity|]. split; [exact Heq|]. split; [|reflexivity].
    intros q s' Hq. lia.
  - intros Hf. destruct (IH Hf) as (p & Hp & Hid & Hfirst & Hm).
    exists (S p). split; [exact Hp|]. split; [exact Hid|].
    split; [|simpl; rewrite Hm; reflexivity].
    intros [|q] s' Hq; simpl.
    + intros [= <-]. exact Hne.
    + apply Hfirst. lia.
Qed.


Lemma holds_insert (st st' : Store) (tid : Z) (T : Task) k n s :
  TASKS st' = <[tid := T]> (TASKS st) ->
  holds st' k n s <->
  (k = tid /\ task_subtasks T !! n = Some s) \/ (k <> tid /\ holds st k n s).
Proof.
  intros HT. unfold holds. rewrite HT. split.
  - intros (t & Hl & Hn). destruct (decide (k = tid)) as [->|Hne].
    + rewrite lookup_insert_eq in Hl. injection Hl as <-. left. auto.
    + rewrite lookup_insert_ne in Hl by congruence. right. eauto.
  - intros [[-> Hn] | [Hne (t & Hl & Hn)]].
    + exists T. rewrite lookup_insert_eq. auto.
    + exists t. rewrite lookup_insert_ne by congruence. auto.
Qed.

Lemma sound_empty : sound empty_store.
Proof.
  split; simpl.
  - lia.
  - intros k. rewrite lookup_empty. split; [intros [? ?]; discriminate | lia].
  - intros k t. rewrite lookup_empty. discriminate.
  - intros k n s (t & Hl & _). simpl in Hl. rewrite lookup_empty in Hl. discriminate.
  - intros k1 n1 s1 k2 n2 s2 (t & Hl & _). simpl in Hl.
    rewrite lookup_empty in Hl. discriminate.
  - intros i Hi. lia.
Qed.

Lemma create_task_store (payload : TaskCreate) (st : Store) :
  exists subs,
    (forall n : nat,
        subs !! n = make_subtask (subtask_id_seq st + 1 + Z.of_nat n)
                      <$> tc_subtasks payload !! n) /\
    create_task payload st
    = (mkTask (task_id_seq st + 1) (tc_title payload) (tc_description payload)
         (all_done subs) subs,
       mkStore
         (<[task_id_seq st + 1 :=
              mkTask (task_id_seq st + 1) (tc_title payload) (tc_description payload)
                (all_done subs) subs]> (TASKS st))
         (task_id_seq st + 1)
         (subtask_id_seq st + Z.of_nat (length (tc_subtasks payload)))).
Proof.
  destruct (TodoProps.create_task_eq payload st) as (subs & st2 & Hb & Hc).
  pose proof (build_subtasks_spec (tc_subtasks payload) (snd (_next_task_id st)))
    as (HT & Ht & Hs & Hn).
  rewrite Hb in HT, Ht, Hs, Hn. simpl in HT, Ht, Hs, Hn.
  exists subs. split; [exact Hn|].
  rewrite Hc. unfold store_task. rewrite HT, Ht, Hs. reflexivity.
Qed.

Lemma add_subtask_store (tid : Z) (payload : SubtaskCreate) (st : Store) old :
  TASKS st !! tid = Some old ->
  add_subtask tid payload st
  = (Ok (with_subtasks old
           (task_subtasks old ++ [make_subtask (subtask_id_seq st + 1) payload])),
     mkStore
       (<[tid := with_subtasks old
                   (task_subtasks old ++ [make_subtask (subtask_id_seq st + 1) payload])]>
          (TASKS st))
       (task_id_seq st) (subtask_id_seq st + 1)).
Proof. intros Hl. unfold add_subtask. rewrite Hl. reflexivity. Qed.

Lemma update_subtask_store (tid sid : Z) (payload : SubtaskUpdate) (st : Store) old s0 :
  TASKS st !! tid = Some old ->
  find_subtask sid (task_subtasks old) = Some s0 ->
  exists p : nat,
    task_subtasks old !! p = Some s0 /\ sub_id s0 = sid /\
    (forall (q : nat) s, (q < p)%nat -> task_subtasks old !! q = Some s ->
                         sub_id s <> sid) /\
    update_subtask tid sid payload st
    = (Ok (with_subtasks old (<[p := apply_update payload s0]> (task_subtasks old))),
       mkStore
         (<[tid := with_subtasks old
                     (<[p := apply_update payload s0]> (task_subtasks old))]>
            (TASKS st))
         (task_id_seq st) (subtask_id_seq st)).
Proof.
  intros Hl Hf.
  destruct (mutate_first_insert sid (apply_update payload) _ _ Hf)
    as (p & Hp & Hid & Hfirst & Hm).
  exists p. split; [exact Hp|]. split; [exact Hid|]. split; [exact Hfirst|].
  unfold update_subtask. rewrite Hl, Hf, Hm. reflexivity.
Qed.

Lemma apply_update_id (payload : SubtaskUpdate) (s : Subtask) :
  sub_id (apply_update payload s) = sub_id s.
Proof. unfold apply_update. destruct (su_title payload), (su_done payload); reflexivity. Qed.

Lemma sound_create (payload : TaskCreate) (st : Store) :
  sound st -> sound (snd (create_task payload st)).
Proof.
  intros [Hseq Hdom Htask Hbound Huniq Hevery].
  destruct (create_task_store payload st) as (subs & Hsubs & ->). simpl.
  set (tid := task_id_seq st + 1).
  set (T := mkTask tid (tc_title payload) (tc_description payload) (all_done subs) subs).
  set (st' := mkStore (<[tid := T]> (TASKS st)) tid
                (subtask_id_seq st + Z.of_nat (length (tc_subtasks payload)))).
  assert (Hfresh : TASKS st !! tid = None).
  { destruct (TASKS st !! tid) eqn:E; [|reflexivity].
    assert (is_Some (TASKS st !! tid)) as Hs by (rewrite E; eauto).
    apply Hdom in Hs. unfold tid in Hs. lia. }
  assert (Hh : forall k n s, holds st' k n s <->
             (k = tid /\ subs !! n = Some s) \/ (k <> tid /\ holds st k n s)).
  { intros. apply (holds_insert st st' tid T). reflexivity. }
  assert (Hnew : forall n s, subs !! n = Some s ->
             sub_id s = subtask_id_seq st + 1 + Z.of_nat n /\
             (n < length (tc_subtasks payload))%nat).
  { intros n s Hn. rewrite Hsubs in Hn.
    destruct (tc_subtasks payload !! n) as [sc|] eqn:E; [|discriminate].
    injection Hn as <-. split; [reflexivity|]. apply lookup_lt_Some in E. exact E. }
  split; simpl.
  - lia.
  - intros k. destruct (decide (k = tid)) as [->|Hne].
    + rewrite lookup_insert_eq. split; [unfold tid; lia | eauto].
    + rewrite lookup_insert_ne by congruence. rewrite Hdom. unfold tid in *. lia.
  - intros k t. destruct (decide (k = tid)) as [->|Hne].
    + rewrite lookup_insert_eq. intros [= <-]. split; reflexivity.
    + rewrite lookup_insert_ne by congruence. apply Htask.
  - intros k n s Hk. apply Hh in Hk. destruct Hk as [[-> Hn] | [_ Hold]].
    + apply Hnew in Hn. lia.
    + apply Hbound in Hold. lia.
  - intros k1 n1 s1 k2 n2 s2 H1 H2 Heq. apply Hh in H1, H2.
    destruct H1 as [[-> Hn1] | [Hk1 Ho1]], H2 as [[-> Hn2] | [Hk2 Ho2]].
    + apply Hnew in Hn1, Hn2. split; [reflexivity | lia].
    + apply Hnew in Hn1. apply Hbound in Ho2. lia.
    + apply Hnew in Hn2. apply Hbound in Ho1. lia.
    + apply (Huniq _ _ _ _ _ _ Ho1 Ho2 Heq).
  - intros i Hi.
    destruct (Z_le_gt_dec i (subtask_id_seq st)) as [Hold|Hgt].
    + destruct (Hevery i ltac:(lia)) as (k & n & s & Hk & Hid).
      exists k, n, s. split; [|exact Hid]. apply Hh. right. split; [|exact Hk].
      intros ->. destruct Hk as (t & Hl & _). rewrite Hfresh in Hl. discriminate.
    + set (n := Z.to_nat (i - subtask_id_seq st - 1)).
      assert (Hn : (n < length (tc_subtasks payload))%nat) by (unfold n; lia).
      destruct (lookup_lt_is_Some_2 _ _ Hn) as [sc Hsc].
      exists tid, n, (make_subtask (subtask_id_seq st + 1 + Z.of_nat n) sc).
      split; [|simpl; unfold n; lia].
      apply Hh. left. split; [reflexivity|]. rewrite Hsubs, Hsc. reflexivity.
Qed.

Lemma sound_add (tid : Z) (payload : SubtaskCreate) (st : Store) :
  sound st -> sound (snd (add_subtask tid payload st)).
Proof.
  intros Hsound. destruct (TASKS st !! tid) as [old|] eqn:Hl.
  2:{ unfold add_subtask. rewrite Hl. exact Hsound. }
  destruct Hsound as [Hseq Hdom Htask Hbound Huniq Hevery].
  rewrite (add_subtask_store _ _ _ _ Hl). simpl.
  set (new := make_subtask (subtask_id_seq st + 1) payload).
  set (T := with_subtasks old (task_subtasks old ++ [new])).
  set (st' := mkStore (<[tid := T]> (TASKS st)) (task_id_seq st) (subtask_id_seq st + 1)).
  assert (Hh : forall k n s, holds st' k n s <->
             (k = tid /\ (task_subtasks old ++ [new]) !! n = Some s)
             \/ (k <> tid /\ holds st k n s)).
  { intros. apply (holds_insert st st' tid T). reflexivity. }
  assert (Hcase : forall k n s, holds st' k n s ->
             holds st k n s \/
             (k = tid /\ n = length (task_subtasks old) /\ s = new)).
  { intros k n s Hk. apply Hh in Hk. destruct Hk as [[-> Hn] | [_ Ho]]; [|left; exact Ho].
    apply lookup_app_Some in Hn. destruct Hn as [Hn | [Hge Hn]].
    - left. exists old. auto.
    - right. destruct (n - length (task_subtasks old))%nat as [|m] eqn:E;
        [|destruct m; discriminate].
      injection Hn as <-. split; [reflexivity|]. split; [lia | reflexivity]. }
  assert (Hkeep : forall k n s, holds st k n s -> holds st' k n s).
  { intros k n s (t & Ht & Hn). apply Hh. destruct (decide (k = tid)) as [->|Hne].
    - left. split; [reflexivity|]. rewrite Hl in Ht. injection Ht as <-.
      apply lookup_app_l_Some. exact Hn.
    - right. split; [exact Hne|]. exists t. auto. }
  split; simpl.
  - lia.
  - intros k. destruct (decide (k = tid)) as [->|Hne].
    + rewrite lookup_insert_eq. rewrite <- Hdom, Hl. split; eauto.
    + rewrite lookup_insert_ne by congruence. apply Hdom.
  - intros k t. destruct (decide (k = tid)) as [->|Hne].
    + rewrite lookup_insert_eq. intros [= <-]. simpl.
      split; [apply (Htask _ _ Hl) | reflexivity].
    + rewrite lookup_insert_ne by congruence. apply Htask.
  - intros k n s Hk. apply Hcase in Hk. destruct Hk as [Ho | (_ & _ & ->)].
    + apply Hbound in Ho. lia.
    + simpl. lia.
  - intros k1 n1 s1 k2 n2 s2 H1 H2 Heq. apply Hcase in H1, H2.
    destruct H1 as [Ho1 | (-> & -> & ->)], H2 as [Ho2 | (-> & -> & ->)].
    + apply (Huniq _ _ _ _ _ _ Ho1 Ho2 Heq).
    + apply Hbound in Ho1. simpl in Heq. lia.
    + apply Hbound in Ho2. simpl in Heq. lia.
    + split; reflexivity.
  - intros i Hi.
    destruct (Z_le_gt_dec i (subtask_id_seq st)) as [Hold|Hgt].
    + destruct (Hevery i ltac:(lia)) as (k & n & s & Hk & Hid).
      exists k, n, s. split; [apply Hkeep; exact Hk | exact Hid].
    + exists tid, (length (task_subtasks old)), new.
      split; [|simpl; lia]. apply Hh. left. split; [reflexivity|].
      apply list_lookup_middle. reflexivity.
Qed.

Lemma sound_update (tid sid : Z) (payload : SubtaskUpdate) (st : Store) :
  sound st -> sound (snd (update_subtask tid sid payload st)).
Proof.
  intros Hsound. destruct (TASKS st !! tid) as [old|] eqn:Hl.
  2:{ unfold update_subtask. rewrite Hl. exact Hsound. }
  destruct (find_subtask sid (task_subtasks old)) as [s0|] eqn:Hf.
  2:{ unfold update_subtask. rewrite Hl, Hf. exact Hsound. }
  destruct Hsound as [Hseq Hdom Htask Hbound Huniq Hevery].
  destruct (update_subtask_store _ _ payload _ _ _ Hl Hf)
    as (p & Hp & Hid & Hfirst & ->). simpl.
  set (s' := apply_update payload s0).
  set (T := with_subtasks old (<[p := s']> (task_subtasks old))).
  set (st' := mkStore (<[tid := T]> (TASKS st)) (task_id_seq st) (subtask_id_seq st)).
  assert (Hh : forall k n s, holds st' k n s <->
             (k = tid /\ <[p := s']> (task_subtasks old) !! n = Some s)
             \/ (k <> tid /\ holds st k n s)).
  { intros. apply (holds_insert st st' tid T). reflexivity. }
  assert (Hback : forall k n s, holds st' k n s ->
             exists s1, holds st k n s1 /\ sub_id s1 = sub_id s).
  { intros k n s Hk. apply Hh in Hk. destruct Hk as [[-> Hn] | [_ Ho]]; [|eauto].
    destruct (decide (n = p)) as [->|Hne].
    - rewrite list_lookup_insert_eq in Hn by (apply lookup_lt_Some in Hp; exact Hp).
      injection Hn as <-. exists s0. split; [exists old; auto|].
      unfold s'. rewrite apply_update_id. reflexivity.
    - rewrite list_lookup_insert_ne in Hn by congruence.
      exists s. split; [exists old; auto | reflexivity]. }
  assert (Hforth : forall k n s, holds st k n s ->
             exists s1, holds st' k n s1 /\ sub_id s1 = sub_id s).
  { intros k n s (t & Ht & Hn). destruct (decide (k = tid)) as [->|Hne].
    - rewrite Hl in Ht. injection Ht as <-.
      destruct (decide (n = p)) as [->|Hnp].
      + exists s'. split.
        * apply Hh. left. split; [reflexivity|].
          apply list_lookup_insert_eq. apply lookup_lt_Some in Hp. exact Hp.
        * rewrite Hp in Hn. injection Hn as <-. apply apply_update_id.
      + exists s. split; [|reflexivity]. apply Hh. left. split; [reflexivity|].
        rewrite list_lookup_insert_ne by congruence. exact Hn.
    - exists s. split; [|reflexivity]. apply Hh. right. split; [exact Hne|].
      exists t. auto. }
  split; simpl.
  - lia.
  - intros k. destruct (decide (k = tid)) as [->|Hne].
    + rewrite lookup_insert_eq. rewrite <- Hdom, Hl. split; eauto.
    + rewrite lookup_insert_ne by congruence. apply Hdom.
  - intros k t. destruct (decide (k = tid)) as [->|Hne].
    + rewrite lookup_insert_eq. intros [= <-]. simpl.
      split; [apply (Htask _ _ Hl) | reflexivity].
    + rewrite lookup_insert_ne by congruence. apply Htask.
  - intros k n s Hk. destruct (Hback _ _ _ Hk) as (s1 & Ho & <-).
    apply (Hbound _ _ _ Ho).
  - intros k1 n1 s1 k2 n2 s2 H1 H2 Heq.
    destruct (Hback _ _ _ H1) as (o1 & Ho1 & Hi1).
    destruct (Hback _ _ _ H2) as (o2 & Ho2 & Hi2).
    apply (Huniq _ _ _ _ _ _ Ho1 Ho2). congruence.
  - intros i Hi. destruct (Hevery i Hi) as (k & n & s & Hk & Hsi).
    destruct (Hforth _ _ _ Hk) as (s1 & Hk1 & Hi1).
    exists k, n, s1. split; [exact Hk1 | congruence].
Qed.

Lemma sound_handle r st : sound st -> sound (handle r st).
Proof.
  destruct r; simpl; [apply sound_create | apply sound_add | apply sound_update].
Qed.

Lemma sound_serve rs st : sound st -> sound (serve rs st).
Proof.
  revert st. induction rs as [|r rs IH]; intros st Hs; [exact Hs|].
  simpl. apply IH, sound_handle, Hs.
Qed.

Lemma sound_reachable st : reachable st -> sound st.
Proof. intros [rs ->]. apply sound_serve, sound_empty. Qed.


Lemma sample_final_reachable : reachable sample_final.
Proof. exists sample_requests. reflexivity. Qed.

(** X1.  In every store the service can reach, the tasks stored are
    exactly those with the ids 1 to [_task_id_seq], and each is stored
    under its own id: no task is ever removed, renumbered or skipped. *)
Theorem task_ids_are_one_to_seq (st : Store) :
  reachable st ->
  0 <= task_id_seq st /\
  (forall k, is_Some (TASKS st !! k) <-> 1 <= k <= task_id_seq st) /\
  (forall k t, TASKS st !! k = Some t -> task_id t = k).
Proof.
  intros Hr. destruct (sound_reachable _ Hr) as [Hseq Hdom Htask _ _ _].
  split; [lia|]. split; [exact Hdom|]. intros k t Hl. apply (Htask _ _ Hl).
Qed.

Lemma task_ids_are_one_to_seq_witness :
  task_id_seq sample_final = 2 /\
  is_Some (TASKS sample_final !! 2) /\ TASKS sample_final !! 3 = None.
Proof.
  destruct (task_ids_are_one_to_seq sample_final sample_final_reachable)
    as (_ & Hdom & _).
  split; [reflexivity|]. split.
  - apply Hdom. vm_compute. split; discriminate.
  - destruct (TASKS sample_final !! 3) eqn:E; [|reflexivity].
    assert (Hs : is_Some (TASKS sample_final !! 3)) by (rewrite E; eauto).
    apply Hdom in Hs. vm_compute in Hs. destruct Hs as [_ Hs]. exfalso. apply Hs. reflexivity.
Defined.

(** X2.  In every store the service can reach, the subtask ids in use
    are exactly 1 to [_subtask_id_seq], and each id is carried by one
    subtask at one position of one task: ids are unique across tasks. *)
Theorem subtask_ids_are_one_to_seq (st : Store) :
  reachable st ->
  (forall i, 1 <= i <= subtask_id_seq st <->
             exists k n s, holds st k n s /\ sub_id s = i) /\
  (forall k1 n1 s1 k2 n2 s2,
      holds st k1 n1 s1 -> holds st k2 n2 s2 -> sub_id s1 = sub_id s2 ->
      k1 = k2 /\ n1 = n2).
Proof.
  intros Hr. destruct (sound_reachable _ Hr) as [_ _ _ Hbound Huniq Hevery].
  split; [|exact Huniq].
  intros i. split; [apply Hevery|].
  intros (k & n & s & Hk & <-). apply (Hbound _ _ _ Hk).
Qed.

Lemma subtask_ids_are_one_to_seq_witness :
  subtask_id_seq sample_final = 4 /\
  exists k n s, holds sample_final k n s /\ sub_id s = 3.
Proof.
  destruct (subtask_ids_are_one_to_seq sample_final sample_final_reachable)
    as (Hdense & _).
  split; [reflexivity|]. apply Hdense. vm_compute. split; discriminate.
Defined.

(** X3.  In every store the service can reach, every stored task, not
    only the one a handler has just returned, has [done] true if and only
    if it has at least one subtask and all its subtasks are done. *)
Theorem stored_tasks_done_consistent (st : Store) (k : Z) (t : Task) :
  reachable st -> TASKS st !! k = Some t -> done_consistent t.
Proof.
  intros Hr Hl. destruct (sound_reachable _ Hr) as [_ _ Htask _ _ _].
  destruct (Htask _ _ Hl) as [_ Hd]. unfold done_consistent. rewrite Hd.
  apply TodoProps.all_done_spec.
Qed.

Lemma stored_tasks_done_consistent_witness :
  exists t, TASKS sample_final !! 1 = Some t /\ done_consistent t /\ task_done t = false.
Proof.
  eexists. split; [vm_compute; reflexivity|]. split; [|reflexivity].
  apply (stored_tasks_done_consistent sample_final 1 _ sample_final_reachable).
  vm_compute. reflexivity.
Defined.

(** X4.  [create_task] in a reachable store never replaces a task: the id
    it draws is not in the store, every other task is kept as it is, and
    the ids of the new subtasks are carried by no subtask of the store. *)
Theorem create_task_is_fresh (payload : TaskCreate) (st st' : Store) (t : Task) :
  reachable st ->
  create_task payload st = (t, st') ->
  TASKS st !! task_id t = None /\
  (forall k, k <> task_id t -> TASKS st' !! k = TASKS st !! k) /\
  (forall n s k m s', task_subtasks t !! n = Some s -> holds st k m s' ->
                      sub_id s <> sub_id s').
Proof.
  intros Hr Hc. destruct (sound_reachable _ Hr) as [Hseq Hdom _ Hbound _ _].
  destruct (create_task_store payload st) as (subs & Hsubs & Heq).
  rewrite Heq in Hc. injection Hc as <- <-. simpl.
  split; [|split].
  - destruct (TASKS st !! (task_id_seq st + 1)) eqn:E; [|reflexivity].
    assert (Hs : is_Some (TASKS st !! (task_id_seq st + 1))) by (rewrite E; eauto).
    apply Hdom in Hs. lia.
  - intros k Hk. apply lookup_insert_ne. congruence.
  - intros n s k m s' Hn Hk. rewrite Hsubs in Hn.
    destruct (tc_subtasks payload !! n); [|discriminate]. injection Hn as <-.
    apply Hbound in Hk. simpl. lia.
Qed.

Lemma create_task_is_fresh_witness :
  TASKS sample_final !! 3 = None /\
  TASKS (snd (create_task sample_payload sample_final)) !! 1
  = TASKS sample_final !! 1.
Proof.
  destruct (create_task_is_fresh sample_payload sample_final
              (snd (create_task sample_payload sample_final))
              (fst (create_task sample_payload sample_final))
              sample_final_reachable)
    as (Hfresh & Hkeep & _).
  - destruct (create_task sample_payload sample_final). reflexivity.
  - split; [exact Hfresh|]. apply Hkeep. vm_compute. discriminate.
Defined.

Lemma numbered_length (subs : list Subtask) (scs : list SubtaskCreate)
    (f : nat -> SubtaskCreate -> Subtask) :
  (forall n : nat, subs !! n = f n <$> scs !! n) -> length subs = length scs.
Proof.
  intros Hn.
  destruct (Nat.lt_trichotomy (length subs) (length scs)) as [Hlt | [Heq | Hgt]];
    [exfalso | exact Heq | exfalso].
  - destruct (lookup_lt_is_Some_2 scs (length subs) Hlt) as [sc Hsc].
    specialize (Hn (length subs)). rewrite Hsc in Hn.
    rewrite lookup_ge_None_2 in Hn by lia. discriminate.
  - destruct (lookup_lt_is_Some_2 subs (length scs) Hgt) as [s Hs].
    specialize (Hn (length scs)). rewrite Hs in Hn.
    rewrite (lookup_ge_None_2 scs) in Hn by lia. discriminate.
Qed.

(** X5.  [create_task] on any store: the task gets the id
    [_task_id_seq + 1] and the title and description of the payload; its
    subtasks are those of the payload in the same order, the one at
    position [n] with id [_subtask_id_seq + 1 + n] and the fields of the
    payload; the task counter advances by one and the subtask counter by
    the number of subtasks. *)
Theorem create_task_numbers_subtasks (payload : TaskCreate) (st : Store) :
  task_id (fst (create_task payload st)) = task_id_seq st + 1 /\
  task_title (fst (create_task payload st)) = tc_title payload /\
  task_description (fst (create_task payload st)) = tc_description payload /\
  length (task_subtasks (fst (create_task payload st)))
  = length (tc_subtasks payload) /\
  (forall n : nat,
      task_subtasks (fst (create_task payload st)) !! n
      = (fun sc => {| sub_id := subtask_id_seq st + 1 + Z.of_nat n;
                      sub_title := sc_title sc;
                      sub_allocated_time := sc_allocated_time sc;
                      sub_done := sc_done sc |}) <$> tc_subtasks payload !! n) /\
  task_id_seq (snd (create_task payload st)) = task_id_seq st + 1 /\
  subtask_id_seq (snd (create_task payload st))
  = subtask_id_seq st + Z.of_nat (length (tc_subtasks payload)).
Proof.
  destruct (create_task_store payload st) as (subs & Hsubs & ->). simpl.
  split; [reflexivity|]. split; [reflexivity|]. split; [reflexivity|].
  split; [|split; [|split; reflexivity]].
  - apply (numbered_length subs (tc_subtasks payload)
             (fun n => make_subtask (subtask_id_seq st + 1 + Z.of_nat n)) Hsubs).
  - intros n. rewrite Hsubs. reflexivity.
Qed.

(** X6.  A successful [add_subtask] in a reachable store appends one
    subtask with the fields of the payload at the end of the task's
    subtasks, under id [_subtask_id_seq + 1], an id no subtask of the store
    carries; the earlier subtasks, the title and the description of the
    task, every other task and the task counter are unchanged. *)
Theorem add_subtask_appends (tid : Z) (payload : SubtaskCreate)
    (st st' : Store) (t : Task) :
  reachable st ->
  add_subtask tid payload st = (Ok t, st') ->
  exists old,
    TASKS st !! tid = Some old /\
    task_subtasks t
    = task_subtasks old ++
      [{| sub_id := subtask_id_seq st + 1;
          sub_title := sc_title payload;
          sub_allocated_time := sc_allocated_time payload;
          sub_done := sc_done payload |}] /\
    task_id t = tid /\ task_title t = task_title old /\
    task_description t = task_description old /\
    (forall k n s, holds st k n s -> sub_id s <> subtask_id_seq st + 1) /\
    (forall k, k <> tid -> TASKS st' !! k = TASKS st !! k) /\
    task_id_seq st' = task_id_seq st /\
    subtask_id_seq st' = subtask_id_seq st + 1.
Proof.
  intros Hr Ha. destruct (sound_reachable _ Hr) as [_ _ Htask Hbound _ _].
  destruct (TASKS st !! tid) as [old|] eqn:Hl.
  2:{ unfold add_subtask in Ha. rewrite Hl in Ha. discriminate. }
  rewrite (add_subtask_store _ _ _ _ Hl) in Ha. injection Ha as <- <-.
  exists old. simpl. split; [reflexivity|]. split; [reflexivity|].
  split; [apply (Htask _ _ Hl)|]. split; [reflexivity|]. split; [reflexivity|].
  split; [|split; [|split; reflexivity]].
  - intros k n s Hk. apply Hbound in Hk. lia.
  - intros k Hk. apply lookup_insert_ne. congruence.
Qed.

Lemma add_subtask_appends_witness :
  exists old,
    TASKS sample_final !! 2 = Some old /\
    task_subtasks (mkTask 2 "empty" (Some "nothing to do") false
                     [mkSubtask 3 "first" 3 true; mkSubtask 5 "second" 0 false])
    = task_subtasks old ++
      [{| sub_id := subtask_id_seq sample_final + 1;
          sub_title := "second";
          sub_allocated_time := 0;
          sub_done := false |}].
Proof.
  destruct (add_subtask_appends 2 (mkSubtaskCreate "second" 0 false) sample_final
              (snd (add_subtask 2 (mkSubtaskCreate "second" 0 false) sample_final))
              (mkTask 2 "empty" (Some "nothing to do") false
                 [mkSubtask 3 "first" 3 true; mkSubtask 5 "second" 0 false])
              sample_final_reachable)
    as (old & Hl & Hsubs & _).
  - vm_compute. reflexivity.
  - exists old. split; [exact Hl | exact Hsubs].
Defined.

(** X7.  A successful [update_subtask] keeps the number and the order of
    the subtasks; the subtask with the given id keeps its id and its
    allocated time and takes the title and the done flag of the payload
    where given; subtasks with another id, the title and the description of
    the task, every other task and both counters are unchanged. *)
Theorem update_subtask_changes_one (tid sid : Z) (payload : SubtaskUpdate)
    (st st' : Store) (t : Task) :
  update_subtask tid sid payload st = (Ok t, st') ->
  exists old (p : nat) s0,
    TASKS st !! tid = Some old /\
    task_subtasks old !! p = Some s0 /\ sub_id s0 = sid /\
    task_subtasks t !! p
    = Some {| sub_id := sid;
              sub_title := default (sub_title s0) (su_title payload);
              sub_allocated_time := sub_allocated_time s0;
              sub_done := default (sub_done s0) (su_done payload) |} /\
    length (task_subtasks t) = length (task_subtasks old) /\
    (forall (n : nat) s, task_subtasks old !! n = Some s -> sub_id s <> sid ->
                         task_subtasks t !! n = Some s) /\
    task_title t = task_title old /\ task_description t = task_description old /\
    (forall k, k <> tid -> TASKS st' !! k = TASKS st !! k) /\
    task_id_seq st' = task_id_seq st /\ subtask_id_seq st' = subtask_id_seq st.
Proof.
  intros Hu. destruct (TASKS st !! tid) as [old|] eqn:Hl.
  2:{ unfold update_subtask in Hu. rewrite Hl in Hu. discriminate. }
  destruct (find_subtask sid (task_subtasks old)) as [s0|] eqn:Hf.
  2:{ unfold update_subtask in Hu. rewrite Hl, Hf in Hu. discriminate. }
  destruct (update_subtask_store _ _ payload _ _ _ Hl Hf)
    as (p & Hp & Hid & Hfirst & Heq).
  rewrite Heq in Hu. injection Hu as <- <-.
  exists old, p, s0. simpl.
  split; [reflexivity|]. split; [exact Hp|]. split; [exact Hid|].
  split; [|split; [apply length_insert|split; [|split; [reflexivity|split;
    [reflexivity|split; [|split; reflexivity]]]]]].
  - rewrite list_lookup_insert_eq by (apply lookup_lt_Some in Hp; exact Hp).
    f_equal. unfold apply_update. subst sid.
    destruct (su_title payload), (su_done payload); destruct s0; reflexivity.
  - intros n s Hn Hne. rewrite list_lookup_insert_ne; [exact Hn|].
    intros <-. rewrite Hp in Hn. injection Hn as <-. contradiction.
  - intros k Hk. apply lookup_insert_ne. congruence.
Qed.

Lemma update_subtask_changes_one_witness :
  exists old (p : nat) s0,
    TASKS sample_final !! 1 = Some old /\
    task_subtasks old !! p = Some s0 /\ sub_id s0 = 4 /\
    sub_done s0 = false.
Proof.
  destruct (update_subtask_changes_one 1 4 (mkSubtaskUpdate None (Some true))
              sample_final
              (snd (update_subtask 1 4 (mkSubtaskUpdate None (Some true)) sample_final))
              (mkTask 1 "release" None true
                 [mkSubtask 1 "tag" 5 true; mkSubtask 2 "announce it" 10 true;
                  mkSubtask 4 "archive" 1 true]))
    as (old & p & s0 & Hl & Hp & Hid & _).
  - vm_compute. reflexivity.
  - exists old, p, s0. split; [exact Hl|]. split; [exact Hp|]. split; [exact Hid|].
    vm_compute in Hl. injection Hl as <-.
    destruct p as [|[|[|p]]]; simpl in Hp; try discriminate;
      injection Hp as <-; simpl in Hid; try discriminate. reflexivity.
Defined.

Lemma apply_update_idempotent (payload : SubtaskUpdate) (s : Subtask) :
  apply_update payload (apply_update payload s) = apply_update payload s.
Proof. unfold apply_update. destruct (su_title payload), (su_done payload); reflexivity. Qed.

Lemma find_after_insert (sid : Z) (subs : list Subtask) (p : nat) (s0 s' : Subtask) :
  subs !! p = Some s0 -> sub_id s' = sid ->
  (forall (q : nat) s, (q < p)%nat -> subs !! q = Some s -> sub_id s <> sid) ->
  find_subtask sid (<[p := s']> subs) = Some s'.
Proof.
  unfold find_subtask. revert p. induction subs as [|s subs IH]; intros p Hp Hid Hfirst.
  - destruct p; discriminate.
  - destruct p as [|p]; simpl.
    + rewrite Hid, Z.eqb_refl. reflexivity.
    + destruct (Z.eqb_spec (sub_id s) sid) as [Heq|Hne].
      * exfalso. apply (Hfirst 0%nat s); [lia | reflexivity | exact Heq].
      * apply IH; [exact Hp | exact Hid |].
        intros q s1 Hq Hs1. apply (Hfirst (S q) s1); [lia | exact Hs1].
Qed.

Lemma store_eta (st : Store) :
  mkStore (TASKS st) (task_id_seq st) (subtask_id_seq st) = st.
Proof. destruct st. reflexivity. Qed.

(** X8.  In a reachable store, [update_subtask] with a payload that sets
    neither the title nor the done flag, on a subtask that exists, changes
    nothing: it returns the stored task and the same store. *)
Theorem update_subtask_empty_payload (tid sid : Z) (st : Store) (t : Task) (s : Subtask) :
  reachable st ->
  TASKS st !! tid = Some t ->
  In s (task_subtasks t) -> sub_id s = sid ->
  update_subtask tid sid (mkSubtaskUpdate None None) st = (Ok t, st).
Proof.
  intros Hr Hl Hin Hid. destruct (sound_reachable _ Hr) as [_ _ Htask _ _ _].
  destruct (find_subtask sid (task_subtasks t)) as [s0|] eqn:Hf.
  2:{ exfalso. unfold find_subtask in Hf.
      apply (find_none _ _ Hf) in Hin. apply Z.eqb_neq in Hin. contradiction. }
  destruct (update_subtask_store _ _ (mkSubtaskUpdate None None) _ _ _ Hl Hf)
    as (p & Hp & _ & _ & ->).
  change (apply_update (mkSubtaskUpdate None None) s0) with s0.
  rewrite (list_insert_id _ _ _ Hp).
  assert (Ht : with_subtasks t (task_subtasks t) = t).
  { destruct (Htask _ _ Hl) as [_ Hd]. unfold with_subtasks. rewrite <- Hd.
    destruct t. reflexivity. }
  rewrite Ht, (insert_id _ _ _ Hl), store_eta. reflexivity.
Qed.

Lemma update_subtask_empty_payload_witness :
  update_subtask 1 2 (mkSubtaskUpdate None None) sample_final
  = (Ok (mkTask 1 "release" None false
           [mkSubtask 1 "tag" 5 true; mkSubtask 2 "announce it" 10 true;
            mkSubtask 4 "archive" 1 false]),
     sample_final).
Proof.
  apply (update_subtask_empty_payload 1 2 sample_final _
           (mkSubtask 2 "announce it" 10 true) sample_final_reachable).
  - vm_compute. reflexivity.
  - simpl. right. left. reflexivity.
  - reflexivity.
Defined.

(** X9.  [update_subtask] is idempotent: after a successful update, the
    same request again succeeds with the same task and leaves the store as
    the first one left it. *)
Theorem update_subtask_idempotent (tid sid : Z) (payload : SubtaskUpdate)
    (st st' : Store) (t : Task) :
  update_subtask tid sid payload st = (Ok t, st') ->
  update_subtask tid sid payload st' = (Ok t, st').
Proof.
  intros Hu. destruct (TASKS st !! tid) as [old|] eqn:Hl.
  2:{ unfold update_subtask in Hu. rewrite Hl in Hu. discriminate. }
  destruct (find_subtask sid (task_subtasks old)) as [s0|] eqn:Hf.
  2:{ unfold update_subtask in Hu. rewrite Hl, Hf in Hu. discriminate. }
  destruct (update_subtask_store _ _ payload _ _ _ Hl Hf)
    as (p & Hp & Hid & Hfirst & Heq).
  rewrite Heq in Hu. injection Hu as <- <-.
  set (s' := apply_update payload s0).
  set (T := with_subtasks old (<[p := s']> (task_subtasks old))).
  set (st1 := mkStore (<[tid := T]> (TASKS st)) (task_id_seq st) (subtask_id_seq st)).
  assert (Hl1 : TASKS st1 !! tid = Some T) by apply lookup_insert_eq.
  assert (Hf1 : find_subtask sid (task_subtasks T) = Some s').
  { apply (find_after_insert sid _ p s0 s' Hp); [|exact Hfirst].
    unfold s'. rewrite apply_update_id. exact Hid. }
  destruct (update_subtask_store _ _ payload _ _ _ Hl1 Hf1)
    as (p1 & Hp1 & _ & Hfirst1 & ->).
  assert (Hpp : p1 = p).
  { assert (Hlt : (p < length (task_subtasks old))%nat)
      by (apply lookup_lt_Some in Hp; exact Hp).
    destruct (Nat.lt_trichotomy p1 p) as [Hlt1 | [Heq1 | Hgt1]]; [exfalso | exact Heq1 | exfalso].
    - simpl in Hp1. rewrite list_lookup_insert_ne in Hp1 by lia.
      apply (Hfirst p1 s' Hlt1 Hp1). unfold s'. rewrite apply_update_id. exact Hid.
    - apply (Hfirst1 p s' Hgt1).
      + simpl. apply list_lookup_insert_eq. exact Hlt.
      + unfold s'. rewrite apply_update_id. exact Hid. }
  subst p1. unfold s'. rewrite apply_update_idempotent. fold s'.
  simpl task_subtasks. rewrite list_insert_insert_eq.
  assert (HT : with_subtasks T (<[p := s']> (task_subtasks old)) = T) by reflexivity.
  rewrite HT. simpl. rewrite insert_insert_eq. reflexivity.
Qed.

Lemma update_subtask_idempotent_witness :
  update_subtask 1 4 (mkSubtaskUpdate (Some "store") (Some true))
    (snd (update_subtask 1 4 (mkSubtaskUpdate (Some "store") (Some true)) sample_final))
  = (Ok (mkTask 1 "release" None true
           [mkSubtask 1 "tag" 5 true; mkSubtask 2 "announce it" 10 true;
            mkSubtask 4 "store" 1 true]),
     snd (update_subtask 1 4 (mkSubtaskUpdate (Some "store") (Some true)) sample_final)).
Proof.
  apply (update_subtask_idempotent 1 4 (mkSubtaskUpdate (Some "store") (Some true))
           sample_final).
  vm_compute. reflexivity.
Defined.

(** X10.  After a successful [add_subtask], the task is done exactly when
    the new subtask is done and all subtasks it had were done: an open
    subtask reopens a done task, and a done subtask added to a task without
    subtasks makes it done. *)
Theorem add_subtask_done_flag (tid : Z) (payload : SubtaskCreate)
    (st st' : Store) (t : Task) :
  add_subtask tid payload st = (Ok t, st') ->
  exists old,
    TASKS st !! tid = Some old /\
    task_done t = forallb sub_done (task_subtasks old) && sc_done payload.
Proof.
  intros Ha. destruct (TASKS st !! tid) as [old|] eqn:Hl.
  2:{ unfold add_subtask in Ha. rewrite Hl in Ha. discriminate. }
  rewrite (add_subtask_store _ _ _ _ Hl) in Ha. injection Ha as <- _.
  exists old. split; [reflexivity|]. simpl. unfold all_done.
  rewrite forallb_app, length_app. simpl. rewrite andb_true_r.
  replace (0 <? Z.of_nat (length (task_subtasks old) + 1)) with true
    by (symmetry; apply Z.ltb_lt; lia).
  reflexivity.
Qed.

Lemma add_subtask_done_flag_witness :
  exists old,
    TASKS sample_final !! 2 = Some old /\
    false = forallb sub_done (task_subtasks old) && false.
Proof.
  destruct (add_subtask_done_flag 2 (mkSubtaskCreate "second" 0 false) sample_final
              (snd (add_subtask 2 (mkSubtaskCreate "second" 0 false) sample_final))
              (mkTask 2 "empty" (Some "nothing to do") false
                 [mkSubtask 3 "first" 3 true; mkSubtask 5 "second" 0 false]))
    as (old & Hl & Hd).
  - vm_compute. reflexivity.
  - exists old. split; [exact Hl | exact Hd].
Defined.

(** X11.  In a reachable store, after a successful [update_subtask] that
    sets the done flag to [d], the task is done exactly when [d] is true
    and every other subtask of the task is done. *)
Theorem update_subtask_done_flag (tid sid : Z) (title : option string) (d : bool)
    (st st' : Store) (t : Task) :
  reachable st ->
  update_subtask tid sid (mkSubtaskUpdate title (Some d)) st = (Ok t, st') ->
  exists old,
    TASKS st !! tid = Some old /\
    (task_done t = true <->
     d = true /\
     forall s, In s (task_subtasks old) -> sub_id s <> sid -> sub_done s = true).
Proof.
  intros Hr Hu. destruct (sound_reachable _ Hr) as [_ _ _ _ Huniq _].
  destruct (TASKS st !! tid) as [old|] eqn:Hl.
  2:{ unfold update_subtask in Hu. rewrite Hl in Hu. discriminate. }
  destruct (find_subtask sid (task_subtasks old)) as [s0|] eqn:Hf.
  2:{ unfold update_subtask in Hu. rewrite Hl, Hf in Hu. discriminate. }
  destruct (update_subtask_store _ _ (mkSubtaskUpdate title (Some d)) _ _ _ Hl Hf)
    as (p & Hp & Hid & Hfirst & Heq).
  rewrite Heq in Hu. injection Hu as <- _.
  exists old. split; [reflexivity|]. simpl.
  set (s' := apply_update (mkSubtaskUpdate title (Some d)) s0).
  assert (Hd' : sub_done s' = d) by (unfold s', apply_update; destruct title; reflexivity).
  assert (Hlt : (p < length (task_subtasks old))%nat)
    by (apply lookup_lt_Some in Hp; exact Hp).
  rewrite TodoProps.all_done_spec. split.
  - intros [_ Hall]. split.
    + rewrite <- Hd'. apply Hall. apply list_elem_of_In.
      apply list_elem_of_lookup. exists p. apply list_lookup_insert_eq. exact Hlt.
    + intros s Hin Hne. apply Hall.
      apply list_elem_of_In, list_elem_of_lookup in Hin. destruct Hin as [n Hn].
      apply list_elem_of_In, list_elem_of_lookup. exists n.
      rewrite list_lookup_insert_ne; [exact Hn|].
      intros <-. rewrite Hp in Hn. injection Hn as <-. contradiction.
  - intros [-> Hothers]. split.
    + intros Hnil. apply (f_equal length) in Hnil.
      rewrite length_insert in Hnil. simpl in Hnil. lia.
    + intros s Hin.
      apply list_elem_of_In, list_elem_of_lookup in Hin. destruct Hin as [n Hn].
      destruct (decide (n = p)) as [->|Hnp].
      * rewrite list_lookup_insert_eq in Hn by exact Hlt. injection Hn as <-. exact Hd'.
      * rewrite list_lookup_insert_ne in Hn by congruence.
        apply Hothers.
        -- apply list_elem_of_In, list_elem_of_lookup. eauto.
        -- intros Hsame.
           destruct (Huniq tid n s tid p s0) as [_ Hnp'];
             [exists old; auto | exists old; auto | congruence | contradiction].
Qed.

Lemma update_subtask_done_flag_witness :
  exists old,
    TASKS sample_final !! 1 = Some old /\
    (true = true <->
     true = true /\
     forall s, In s (task_subtasks old) -> sub_id s <> 4 -> sub_done s = true).
Proof.
  apply (update_subtask_done_flag 1 4 None true sample_final
           (snd (update_subtask 1 4 (mkSubtaskUpdate None (Some true)) sample_final))
           (mkTask 1 "release" None true
              [mkSubtask 1 "tag" 5 true; mkSubtask 2 "announce it" 10 true;
               mkSubtask 4 "archive" 1 true])
           sample_final_reachable).
  vm_compute. reflexivity.
Defined.

End TodoRunsProps.

(** ** The chat client over a session *)

Module ClientRunsProps.
Import Json Client ClientRuns.

Local Open Scope list_scope.

Section Sessions.
Context {W : Type} {P : Peers W}.

Lemma call_events_nil : call_events [] = [].
Proof. reflexivity. Qed.

Lemma call_events_decoded (tc : ToolCall) (tcs : list ToolCall) (args : json) :
  parse_arguments (tc_arguments tc) = inr args ->
  call_events (tc :: tcs) = CallTool (tc_name tc) args :: call_events tcs.
Proof.
  intros Hargs. unfold call_events. cbn [omap list_omap]. unfold call_event at 1.
  rewrite Hargs. reflexivity.
Qed.

Lemma call_events_undecoded (tc : ToolCall) (tcs : list ToolCall) (e : Exception) :
  parse_arguments (tc_arguments tc) = inl e ->
  call_events (tc :: tcs) = call_events tcs.
Proof.
  intros Hargs. unfold call_events. cbn [omap list_omap]. unfold call_event at 1.
  rewrite Hargs. reflexivity.
Qed.

(** Every invocation is a [CallTool] event. *)
Lemma call_events_tools (tcs : list ToolCall) :
  Forall (fun e => match e with CallTool _ _ => True | _ => False end)
    (call_events tcs).
Proof.
  induction tcs as [|tc tcs IH]; [constructor|].
  destruct (parse_arguments (tc_arguments tc)) as [e|args] eqn:Hargs.
  - rewrite (call_events_undecoded _ _ _ Hargs). exact IH.
  - rewrite (call_events_decoded _ _ _ Hargs). constructor; [exact I | exact IH].
Qed.

(** The loop over the tool calls of a round takes up the first [k] calls,
    invokes those whose arguments decode and appends [ms].  When it
    raises, the exception comes from the last call taken up: from its
    invocation, or from decoding its arguments, and then this call is not
    invoked. *)
Lemma dispatch_tool_calls_log (tcs : list ToolCall) (st : State W) :
  exists (k : nat) ms,
    trace (snd (dispatch_tool_calls tcs st))
    = trace st ++ call_events (firstn k tcs) /\
    messages (snd (dispatch_tool_calls tcs st)) = messages st ++ ms /\
    Forall (fun m => is_tool_message m = true) ms /\
    match fst (dispatch_tool_calls tcs st) with
    | inr _ =>
        k = length tcs /\ length ms = k /\ length (call_events tcs) = k
    | inl e =>
        (k <= length tcs)%nat /\ S (length ms) = k /\
        (length (call_events (firstn k tcs)) = k \/
         length (call_events (firstn k tcs)) = length ms /\
         exists tc, last (firstn k tcs) = Some tc /\
                    parse_arguments (tc_arguments tc) = inl e)
    end.
Proof.
  revert st. induction tcs as [|tc tcs IH]; intros st.
  - exists 0%nat, []. simpl. rewrite !app_nil_r. repeat split. constructor.
  - rewrite ClientProps.dispatch_tool_calls_cons.
    destruct (parse_arguments (tc_arguments tc)) as [e|args] eqn:Hargs.
    { rewrite (ClientProps.dispatch_tool_call_undecoded _ _ _ Hargs).
      exists 1%nat, []. change (firstn 1 (tc :: tcs)) with [tc].
      cbn [fst snd length].
      rewrite (call_events_undecoded _ _ _ Hargs), call_events_nil, !app_nil_r.
      split; [reflexivity|]. split; [reflexivity|]. split; [constructor|].
      split; [lia|]. split; [reflexivity|].
      right. split; [reflexivity|]. exists tc. split; [reflexivity | exact Hargs]. }
    destruct (call_tool (tc_name tc) args (world st)) as [[e|r] w] eqn:Hcall.
    + rewrite (ClientProps.dispatch_tool_call_raises _ _ _ _ _ Hargs Hcall).
      exists 1%nat, []. change (firstn 1 (tc :: tcs)) with [tc].
      cbn [fst snd length messages trace].
      rewrite (call_events_decoded _ _ _ Hargs), call_events_nil, app_nil_r.
      split; [reflexivity|]. split; [reflexivity|]. split; [constructor|].
      split; [lia|]. split; [reflexivity|]. left. reflexivity.
    + rewrite (ClientProps.dispatch_tool_call_returns _ _ _ _ _ Hargs Hcall).
      match goal with |- context [dispatch_tool_calls tcs ?s] =>
        destruct (IH s) as (k & ms & Ht & Hm & Hall & Hk) end.
      cbn [messages trace] in Ht, Hm.
      exists (S k),
        (ToolMessage (tc_id tc) (tc_name tc) (_flatten_tool_result r) :: ms).
      change (firstn (S k) (tc :: tcs)) with (tc :: firstn k tcs).
      cbn [length].
      rewrite Ht, Hm, <- !app_assoc, !(call_events_decoded _ _ _ Hargs).
      split; [reflexivity|]. split; [reflexivity|].
      split; [constructor; [reflexivity | exact Hall]|].
      cbn [length].
      destruct (fst (dispatch_tool_calls tcs _)) as [e|].
      * destruct Hk as (Hle & Hlen & Hev).
        split; [lia|]. split; [lia|].
        destruct Hev as [Hev | (Hev & tc' & Hlast & Hexc)]; [left; lia|].
        right. split; [lia|]. exists tc'. split; [|exact Hexc].
        rewrite last_cons, Hlast. reflexivity.
      * destruct Hk as (Hk & Hlen & Hev). repeat split; lia.
Qed.

Lemma awaits_after_tools (l ms : list Message) :
  Forall (fun m => is_tool_message m = true) ms -> ms <> [] ->
  awaits_completion (l ++ ms).
Proof.
  intros Hall Hne. unfold awaits_completion.
  destruct (proj2 (last_is_Some ms) Hne) as [x Hx].
  rewrite (proj2 (last_app_Some l ms x)) by (left; exact Hx).
  apply last_Some in Hx. destruct Hx as [ms' ->].
  apply Forall_app in Hall. destruct Hall as [_ Hx].
  inversion Hx as [|? ? Hxt _]; subst. destruct x; try discriminate. exact I.
Qed.

Lemma completion_ok_weaken (tools : list GroqTool) (start more : list Message) (e : Event) :
  completion_ok tools (start ++ more) e -> completion_ok tools start e.
Proof.
  destruct e; simpl; try exact id.
  intros (Ht & (more' & ->) & Ha). split; [exact Ht|]. split; [|exact Ha].
  exists (more ++ more'). rewrite app_assoc. reflexivity.
Qed.

Lemma tool_messages_round (ms : list Message) :
  Forall (fun m => is_tool_message m = true) ms -> Forall round_message ms.
Proof.
  intros Hall. apply (Forall_impl _ _ _ Hall).
  intros m Hm. destruct m; try discriminate. exact I.
Qed.

Lemma call_events_ok (tools : list GroqTool) (start : list Message) (tcs : list ToolCall) :
  Forall (completion_ok tools start) (call_events tcs).
Proof.
  apply (Forall_impl _ _ _ (call_events_tools tcs)).
  intros e He. destruct e; try contradiction. exact I.
Qed.

Lemma model_calls_call_events (tcs : list ToolCall) :
  model_calls (call_events tcs) = 0%nat.
Proof.
  unfold model_calls.
  induction (call_events_tools tcs) as [|e l He _ IH]; [reflexivity|].
  destruct e; try contradiction. exact IH.
Qed.

Lemma rounds_log (groq_tools : list GroqTool) (n : nat) (st : State W) :
  awaits_completion (messages st) ->
  exists ms tr,
    messages (snd (rounds groq_tools n st)) = messages st ++ ms /\
    trace (snd (rounds groq_tools n st)) = trace st ++ tr /\
    Forall round_message ms /\
    Forall (completion_ok groq_tools (messages st)) tr /\
    (model_calls tr <= n)%nat.
Proof.
  revert st. induction n as [|n IH]; intros st Haw.
  - exists [], []. simpl. rewrite !app_nil_r.
    repeat split; [constructor | constructor | cbn; lia].
  - rewrite ClientProps.rounds_S. cbv zeta.
    assert (Hcall : completion_ok groq_tools (messages st)
                      (ModelCall (messages st) groq_tools)).
    { split; [reflexivity|]. split; [exists []; rewrite app_nil_r; reflexivity | exact Haw]. }
    destruct (create (messages st) groq_tools (world st)) as [[e|msg] w].
    + exists [], [ModelCall (messages st) groq_tools]. simpl. rewrite app_nil_r.
      repeat split; [constructor | constructor; [exact Hcall | constructor] | cbn; lia].
    + destruct (requested msg) as [|tc tcs] eqn:Hreq.
      * exists [], [ModelCall (messages st) groq_tools;
                    PrintLine (Py.LF ++ Py.strip (Py.str_or (msg_content msg) "") ++ Py.LF)%string].
        simpl. rewrite app_nil_r, <- app_assoc.
        repeat split; [constructor | | cbn; lia].
        constructor; [exact Hcall|]. constructor; [exact I | constructor].
      * match goal with |- context [dispatch_tool_calls (tc :: tcs) ?s] =>
          destruct (dispatch_tool_calls_log (tc :: tcs) s)
            as (k & ms1 & Ht1 & Hm1 & Hall1 & Hk);
          destruct (dispatch_tool_calls (tc :: tcs) s) as [[e|[]] st2] end;
        simpl in Ht1, Hm1, Hk.
        -- exists (AssistantMessage (Py.str_or (msg_content msg) "") (tc :: tcs) :: ms1),
                  (ModelCall (messages st) groq_tools :: call_events (firstn k (tc :: tcs))).
           simpl. rewrite Hm1, Ht1, <- !app_assoc. simpl.
           split; [reflexivity|]. split; [reflexivity|].
           split; [constructor; [exact I | apply tool_messages_round, Hall1]|].
           split; [constructor; [exact Hcall | apply call_events_ok]|].
           change (ModelCall (messages st) groq_tools :: call_events (firstn k (tc :: tcs)))
             with ([ModelCall (messages st) groq_tools] ++ call_events (firstn k (tc :: tcs))).
           rewrite ClientProps.model_calls_app, model_calls_call_events. cbn. lia.
        -- destruct Hk as (-> & Hlen & _).
           assert (Haw2 : awaits_completion (messages st2)).
           { rewrite Hm1, <- app_assoc. simpl.
             change (messages st ++ AssistantMessage (Py.str_or (msg_content msg) "") (tc :: tcs) :: ms1)
               with (messages st ++ [AssistantMessage (Py.str_or (msg_content msg) "") (tc :: tcs)] ++ ms1).
             rewrite app_assoc. apply awaits_after_tools; [exact Hall1|].
             intros ->. simpl in Hlen. discriminate. }
           destruct (IH st2 Haw2) as (ms2 & tr2 & Hm2 & Ht2 & Hr2 & Hc2 & Hn2).
           exists (AssistantMessage (Py.str_or (msg_content msg) "") (tc :: tcs)
                     :: ms1 ++ ms2),
                  (ModelCall (messages st) groq_tools
                     :: call_events (firstn (length (tc :: tcs)) (tc :: tcs)) ++ tr2).
           rewrite Hm2, Ht2, Hm1, Ht1, <- !app_assoc. simpl.
           split; [reflexivity|]. split; [reflexivity|].
           split.
           { constructor; [exact I|]. apply Forall_app. split; [|exact Hr2].
             apply tool_messages_round, Hall1. }
           split.
           { constructor; [exact Hcall|].
             apply Forall_app. split; [apply call_events_ok|].
             rewrite Hm1 in Hc2. rewrite <- app_assoc in Hc2.
             apply (Forall_impl _ _ _ Hc2). intros e. apply completion_ok_weaken. }
           match goal with |- (model_calls (?a :: ?x ++ ?t) <= _)%nat =>
             change (a :: x ++ t) with ([a] ++ x ++ t) end.
           rewrite !ClientProps.model_calls_app, model_calls_call_events. cbn. lia.
Qed.

Lemma user_turn_log (groq_tools : list GroqTool) (user : string) (st : State W) :
  exists ms tr,
    messages (snd (user_turn groq_tools user st))
    = messages st ++ UserMessage user :: ms /\
    trace (snd (user_turn groq_tools user st)) = trace st ++ tr /\
    Forall round_message ms /\
    Forall (completion_ok groq_tools (messages st)) tr /\
    (model_calls tr <= 5)%nat.
Proof.
  rewrite ClientProps.user_turn_eq.
  match goal with |- context [rounds groq_tools 5 ?s] =>
    destruct (rounds_log groq_tools 5 s) as (ms & tr & Hm & Ht & Hr & Hc & Hn) end.
  { cbn [messages]. unfold awaits_completion. rewrite last_snoc. exact I. }
  cbn [messages trace] in Hm, Ht, Hc. exists ms, tr.
  split; [rewrite Hm, <- app_assoc; reflexivity|]. split; [exact Ht|].
  split; [exact Hr|]. split; [|exact Hn].
  apply (Forall_impl _ _ _ Hc). intros e. apply completion_ok_weaken.
Qed.

Lemma filter_user_round (ms : list Message) :
  Forall round_message ms -> List.filter is_user ms = [].
Proof.
  induction 1 as [|m ms Hm _ IH]; simpl; [reflexivity|].
  destruct m; simpl in *; try contradiction; exact IH.
Qed.

Lemma chat_loop_nil (groq_tools : list GroqTool) (st : State W) :
  chat_loop groq_tools [] st
  = (inl EOFError, mkState (messages st) (world st) (trace st ++ [Prompt "> "])).
Proof. reflexivity. Qed.

Lemma chat_loop_log (groq_tools : list GroqTool) (stdin : list string) (st : State W) :
  exists ms tr,
    messages (snd (chat_loop groq_tools stdin st)) = messages st ++ ms /\
    trace (snd (chat_loop groq_tools stdin st)) = trace st ++ tr /\
    Forall turn_message ms /\
    Forall (completion_ok groq_tools (messages st)) tr /\
    (model_calls tr <= 5 * length stdin)%nat /\
    (length (List.filter is_user ms) <= length stdin)%nat.
Proof.
  revert st. induction stdin as [|line rest IH]; intros st.
  - rewrite chat_loop_nil. exists [], [Prompt "> "]. simpl. rewrite app_nil_r.
    repeat split; [constructor | constructor; [exact I | constructor] | cbn; lia | lia].
  - rewrite ClientProps.chat_loop_cons.
    destruct (is_quit (Py.strip line)).
    + exists [], [Prompt "> "]. simpl. rewrite app_nil_r.
      repeat split; [constructor | constructor; [exact I | constructor] | cbn; lia | lia].
    + set (s := mkState (messages st) (world st) (trace st ++ [Prompt "> "])).
      destruct (user_turn_log groq_tools (Py.strip line) s)
        as (ms1 & tr1 & Hm1 & Ht1 & Hr1 & Hc1 & Hn1).
      cbn [messages trace s] in Hm1, Ht1, Hc1.
      destruct (user_turn groq_tools (Py.strip line) s) as [[e|[]] st1];
        cbn [snd] in Hm1, Ht1.
      * exists (UserMessage (Py.strip line) :: ms1), (Prompt "> " :: tr1).
        cbn [snd]. rewrite Hm1, Ht1, <- app_assoc.
        split; [reflexivity|]. split; [reflexivity|].
        split; [constructor; [exact I|];
                apply (Forall_impl _ _ _ Hr1); intros m; destruct m; simpl; tauto|].
        split; [constructor; [exact I | exact Hc1]|].
        split.
        { change (Prompt "> " :: tr1) with ([Prompt "> "] ++ tr1).
          rewrite ClientProps.model_calls_app. cbn [length]. cbn. lia. }
        simpl. rewrite (filter_user_round _ Hr1). simpl. lia.
      * destruct (IH st1) as (ms2 & tr2 & Hm2 & Ht2 & Hr2 & Hc2 & Hn2 & Hu2).
        exists (UserMessage (Py.strip line) :: ms1 ++ ms2), (Prompt "> " :: tr1 ++ tr2).
        rewrite Hm2, Ht2, Hm1, Ht1, <- !app_assoc. simpl.
        split; [reflexivity|]. split; [reflexivity|].
        split.
        { constructor; [exact I|]. apply Forall_app. split; [|exact Hr2].
          apply (Forall_impl _ _ _ Hr1). intros m; destruct m; simpl; tauto. }
        split.
        { constructor; [exact I|]. apply Forall_app. split; [exact Hc1|].
          rewrite Hm1 in Hc2. apply (Forall_impl _ _ _ Hc2).
          intros e. apply completion_ok_weaken. }
        split.
        { change (Prompt "> " :: tr1 ++ tr2) with ([Prompt "> "] ++ tr1 ++ tr2).
          rewrite !ClientProps.model_calls_app. cbn [length]. cbn. lia. }
        rewrite List.filter_app, (filter_user_round _ Hr1), length_app. simpl. lia.
Qed.

(** X12.  A session only appends to the transcript, and what it appends
    are user messages (at most one per input line), assistant messages
    that carry at least one tool call, and tool messages: no message is
    removed or rewritten, no second system message is added, and the text
    of a final answer is never recorded. *)
Theorem session_appends_turn_messages
    (groq_tools : list GroqTool) (stdin : list string) (st : State W) :
  exists ms,
    messages (snd (chat_loop groq_tools stdin st)) = messages st ++ ms /\
    Forall turn_message ms /\
    (length (List.filter is_user ms) <= length stdin)%nat.
Proof.
  destruct (chat_loop_log groq_tools stdin st) as (ms & tr & Hm & _ & Hk & _ & _ & Hu).
  exists ms. auto.
Qed.

(** X13.  Over a whole session the number of completions asked for is at
    most five times the number of input lines. *)
Theorem session_completions_bound
    (groq_tools : list GroqTool) (stdin : list string) (st : State W) :
  exists tr,
    trace (snd (chat_loop groq_tools stdin st)) = trace st ++ tr /\
    (model_calls tr <= 5 * length stdin)%nat.
Proof.
  destruct (chat_loop_log groq_tools stdin st) as (ms & tr & _ & Ht & _ & _ & Hn & _).
  exists tr. auto.
Qed.


Lemma convert_names (tools : list Tool) :
  map gt_name (_convert_mcp_tools_to_groq tools) = map name tools.
Proof. induction tools as [|t tools IH]; simpl; [reflexivity | rewrite IH; reflexivity]. Qed.

(** X15.  When discovery and the API client succeed, [run_client] prints
    the names of the discovered tools in their order, then the two banner
    lines; the transcript is the system prompt followed by turn messages
    only; and every completion request carries the converted tool list and
    a transcript that starts with the system prompt. *)
Theorem session_starts_with_system_prompt
    (server_path : string) (stdin : list string) (w w1 w2 : W) (tools : list Tool) :
  connect server_path w = (inr tools, w1) ->
  groq_client w1 = (inr tt, w2) ->
  exists ms tr,
    messages (snd (run_client server_path stdin (mkState [] w [])))
    = SystemMessage system_prompt :: ms /\
    Forall turn_message ms /\
    trace (snd (run_client server_path stdin (mkState [] w [])))
    = PrintTools (map name tools) :: PrintLine banner1 :: PrintLine banner2 :: tr /\
    Forall (completion_ok (_convert_mcp_tools_to_groq tools)
              [SystemMessage system_prompt]) tr.
Proof.
  intros Hc Hg.
  rewrite (ClientProps.run_client_connected server_path stdin (mkState [] w [])
             tools w1 w2 Hc Hg).
  cbn [messages trace world app].
  match goal with |- context [chat_loop ?t stdin ?s] =>
    destruct (chat_loop_log t stdin s) as (ms & tr & Hm & Ht & Hk & Hok & _ & _) end.
  cbn [messages trace app] in Hm, Ht, Hok.
  exists ms, tr. rewrite Hm, Ht, convert_names. auto.
Qed.

(** X16.  Input after a quit command is not read: the session behaves
    the same whatever follows the command. *)
Theorem input_after_quit_is_not_read
    (groq_tools : list GroqTool) (pre : list string) (q : string)
    (rest : list string) (st : State W) :
  is_quit (Py.strip q) = true ->
  chat_loop groq_tools (pre ++ q :: rest) st = chat_loop groq_tools (pre ++ [q]) st.
Proof.
  intros Hq. revert st. induction pre as [|line pre IH]; intros st.
  - simpl app. rewrite !ClientProps.chat_loop_cons, Hq. reflexivity.
  - simpl app. rewrite !ClientProps.chat_loop_cons.
    destruct (is_quit (Py.strip line)); [reflexivity|].
    destruct (user_turn groq_tools (Py.strip line) _) as [[e|[]] st1];
      [reflexivity | apply IH].
Qed.

Lemma chat_loop_returns_quit (groq_tools : list GroqTool) (stdin : list string)
    (st : State W) :
  fst (chat_loop groq_tools stdin st) = inr tt ->
  exists line, In line stdin /\ is_quit (Py.strip line) = true.
Proof.
  revert st. induction stdin as [|line rest IH]; intros st.
  - rewrite chat_loop_nil. discriminate.
  - rewrite ClientProps.chat_loop_cons.
    destruct (is_quit (Py.strip line)) eqn:Hq.
    + intros _. exists line. split; [left; reflexivity | exact Hq].
    + destruct (user_turn groq_tools (Py.strip line) _) as [[e|[]] st1];
        [discriminate|].
      intros Hr. destruct (IH _ Hr) as (l & Hin & Hl).
      exists l. split; [right; exact Hin | exact Hl].
Qed.

(** X17.  The script ends with an exit status in two cases only: status
    0, with at least one argument, after a line that is a quit command was
    read; status 1, with no argument, after printing the usage line and
    nothing else.  Every other run ends with an exception. *)
Theorem exit_status_meaning
    (argv stdin : list string) (w : W) (code : Z) (st : State W) :
  main argv stdin w = (Exit code, st) ->
  (code = 0 /\ (2 <= length argv)%nat /\
   exists line, In line stdin /\ is_quit (Py.strip line) = true)
  \/ (code = 1 /\ (length argv < 2)%nat /\ st = mkState [] w [PrintLine usage]).
Proof.
  unfold main. destruct argv as [|prog [|server_path more]].
  - intros [= <- <-]. right. simpl. split; [reflexivity|]. split; [lia | reflexivity].
  - intros [= <- <-]. right. simpl. split; [reflexivity|]. split; [lia | reflexivity].
  - destruct (run_client server_path stdin (mkState [] w [])) as [[e|[]] st1] eqn:Hrun;
      [discriminate|].
    intros [= <- <-]. left. split; [reflexivity|]. split; [simpl; lia|].
    unfold run_client, bind, peer in Hrun. cbn [world messages trace] in Hrun.
    destruct (connect server_path w) as [[e|tools] w1]; [discriminate|].
    cbn in Hrun.
    destruct (groq_client w1) as [[e|[]] w2]; [discriminate|].
    cbn in Hrun.
    match type of Hrun with chat_loop ?t stdin ?s = _ =>
      apply (chat_loop_returns_quit t stdin s) end.
    rewrite Hrun. reflexivity.
Qed.

(** X18.  When no input line is a quit command, the peers do not raise
    and [json.loads] does not raise on the argument texts of the model
    (other than [JSONDecodeError]), the session runs a turn for every
    line, the user messages it appended being the lines stripped, in
    order, and then ends with [EOFError]. *)
Theorem input_without_quit_ends_in_eof
    (groq_tools : list GroqTool) (stdin : list string) (st : State W) :
  never_raises P ->
  arguments_decode P ->
  Forall (fun line => is_quit (Py.strip line) = false) stdin ->
  fst (chat_loop groq_tools stdin st) = inl EOFError /\
  exists ms,
    messages (snd (chat_loop groq_tools stdin st)) = messages st ++ ms /\
    user_texts ms = map Py.strip stdin.
Proof.
  intros Hnr Hdec Hall. revert st.
  induction Hall as [|line rest Hq _ IH]; intros st.
  - rewrite chat_loop_nil. split; [reflexivity|]. exists []. simpl.
    rewrite app_nil_r. auto.
  - rewrite ClientProps.chat_loop_cons, Hq.
    set (s := mkState (messages st) (world st) (trace st ++ [Prompt "> "])).
    destruct (user_turn_log groq_tools (Py.strip line) s)
      as (ms1 & tr1 & Hm1 & _ & Hr1 & _ & _).
    pose proof (ClientProps.rounds_returns groq_tools 5
                  (mkState (messages s ++ [UserMessage (Py.strip line)]) (world s) (trace s))
                  Hnr Hdec) as Hret.
    rewrite <- ClientProps.user_turn_eq in Hret.
    cbn [messages s] in Hm1.
    destruct (user_turn groq_tools (Py.strip line) s) as [[e|[]] st1];
      [discriminate|].
    cbn [snd] in Hm1.
    destruct (IH st1) as (Heof & ms2 & Hm2 & Hu2).
    split; [exact Heof|].
    exists (UserMessage (Py.strip line) :: ms1 ++ ms2).
    split; [rewrite Hm2, Hm1, <- app_assoc; reflexivity|].
    unfold user_texts in *. simpl. f_equal.
    rewrite omap_app, Hu2.
    replace (omap _ ms1) with (@nil string); [reflexivity|].
    clear -Hr1. induction Hr1 as [|m ms Hm _ IHm]; [reflexivity|].
    destruct m; simpl in *; try contradiction; exact IHm.
Qed.

(** X19.  The tool calls of a round are taken up one after the other in
    the order of the model's list, each invoked with its name and its
    parsed arguments.  When all return, there are as many invocations and
    as many messages appended as calls; when one raises, nothing after it
    is taken up and it is the one call without a message: the exception
    is the one of its invocation, or the one [json.loads] raised on its
    arguments, and then it is not invoked. *)
Theorem tools_invoked_in_order (tcs : list ToolCall) (st : State W) :
  exists (k : nat) ms,
    trace (snd (dispatch_tool_calls tcs st))
    = trace st ++ call_events (firstn k tcs) /\
    messages (snd (dispatch_tool_calls tcs st)) = messages st ++ ms /\
    match fst (dispatch_tool_calls tcs st) with
    | inr _ =>
        k = length tcs /\ length ms = k /\ length (call_events tcs) = k
    | inl e =>
        (k <= length tcs)%nat /\ S (length ms) = k /\
        (length (call_events (firstn k tcs)) = k \/
         length (call_events (firstn k tcs)) = length ms /\
         exists tc, last (firstn k tcs) = Some tc /\
                    parse_arguments (tc_arguments tc) = inl e)
    end.
Proof.
  destruct (dispatch_tool_calls_log tcs st) as (k & ms & Ht & Hm & _ & Hk).
  exists k, ms. auto.
Qed.

Lemma append_empty (s : string) : (s ++ "")%string = s.
Proof.
  induction s as [|c s IH]; [reflexivity | exact (f_equal (String c) IH)].
Qed.

Lemma append_assoc (a b c : string) : ((a ++ b) ++ c)%string = (a ++ b ++ c)%string.
Proof.
  induction a as [|x a IH]; [reflexivity | exact (f_equal (String x) IH)].
Qed.

Lemma strip_blank (line : string) : Py.blank line -> Py.strip line = ""%string.
Proof.
  intros Hb. unfold Py.strip.
  rewrite <- (append_empty line), (PyProps.lstrip_blank line "" Hb). reflexivity.
Qed.

Lemma rounds_first_event (groq_tools : list GroqTool) (n : nat) (st : State W) :
  exists tr,
    trace (snd (rounds groq_tools (S n) st))
    = trace st ++ ModelCall (messages st) groq_tools :: tr.
Proof.
  rewrite ClientProps.rounds_S. cbv zeta.
  destruct (create (messages st) groq_tools (world st)) as [[e|msg] w].
  - exists []. reflexivity.
  - destruct (requested msg) as [|tc tcs].
    + eexists. cbn [snd trace]. rewrite <- app_assoc. reflexivity.
    + match goal with |- context [dispatch_tool_calls (tc :: tcs) ?s] =>
        destruct (dispatch_tool_calls_log (tc :: tcs) s) as (k & ms1 & Ht1 & _);
        destruct (dispatch_tool_calls (tc :: tcs) s) as [[e|[]] st2] end;
      cbn [snd trace] in Ht1.
      * eexists. cbn [snd]. rewrite Ht1, <- app_assoc. reflexivity.
      * destruct (ClientProps.rounds_shape groq_tools n st2) as (_ & tr2 & _ & Ht2 & _).
        eexists. rewrite Ht2, Ht1, <- !app_assoc. reflexivity.
Qed.

(** X20.  A line of ASCII whitespace only, the empty line included, is not
    skipped: after the prompt, a completion is asked for on the transcript
    extended with a user message whose text is empty. *)
Theorem blank_line_is_sent
    (groq_tools : list GroqTool) (line : string) (rest : list string) (st : State W) :
  Py.blank line ->
  exists tr,
    trace (snd (chat_loop groq_tools (line :: rest) st))
    = trace st ++
      Prompt "> " :: ModelCall (messages st ++ [UserMessage ""]) groq_tools :: tr.
Proof.
  intros Hb. rewrite ClientProps.chat_loop_cons, (strip_blank _ Hb).
  change (is_quit "") with false. cbv iota.
  rewrite ClientProps.user_turn_eq. cbn [messages world trace].
  match goal with |- context [rounds groq_tools 5 ?s] =>
    destruct (rounds_first_event groq_tools 4 s) as (tr1 & Ht1);
    destruct (rounds groq_tools 5 s) as [[e|[]] st1] end;
  cbn [snd trace messages] in Ht1.
  - exists tr1. cbn [snd]. rewrite Ht1, <- app_assoc. reflexivity.
  - destruct (chat_loop_log groq_tools rest st1) as (_ & tr2 & _ & Ht2 & _).
    exists (tr1 ++ tr2). rewrite Ht2, Ht1, <- !app_assoc. reflexivity.
Qed.
End Sessions.

(** X21.  Every converted tool has type ["function"], a description that
    is not empty and a parameter schema that is not empty: an empty
    description is replaced like a missing one, an empty [inputSchema]
    gives way to [input_schema], and the empty-object schema is used when
    both are missing or empty. *)
Theorem converted_tools_never_empty (tools : list Tool) :
  Forall (fun g => gt_type g = "function"%string /\
                   gt_description g <> ""%string /\ gt_parameters g <> [])
    (_convert_mcp_tools_to_groq tools)
  /\ forall (i : nat) (t : Tool),
      tools !! i = Some t ->
      exists g,
        _convert_mcp_tools_to_groq tools !! i = Some g /\
        (description t = Some ""%string ->
         gt_description g = "No description"%string) /\
        (forall s, (inputSchema t = None \/ inputSchema t = Some []) ->
                   input_schema t = Some s -> s <> [] -> gt_parameters g = s) /\
        ((inputSchema t = None \/ inputSchema t = Some []) ->
         (input_schema t = None \/ input_schema t = Some []) ->
         gt_parameters g = [("type"%string, JString "object")]).
Proof.
  split.
  - induction tools as [|t tools IH]; simpl; constructor; [|exact IH].
    unfold convert_tool. simpl. split; [reflexivity|]. split.
    + destruct (description t) as [[|c d]|]; simpl; discriminate.
    + destruct (inputSchema t) as [[|x xs]|], (input_schema t) as [[|y ys]|];
        simpl; discriminate.
  - induction tools as [|t0 tools IH]; intros i t Hi; [destruct i; discriminate|].
    destruct i as [|i]; simpl in Hi |- *; [|apply IH; exact Hi].
    injection Hi as <-. exists (convert_tool t0). split; [reflexivity|].
    unfold convert_tool. simpl. split; [intros ->; reflexivity|]. split.
    + intros s [-> | ->] -> Hs; destruct s; try contradiction; reflexivity.
    + intros [-> | ->] [-> | ->]; reflexivity.
Qed.

Section FlattenMore.
Context `{Render}.

Lemma join_app_nonempty (sep : string) (l1 l2 : list string) :
  l1 <> [] -> l2 <> [] ->
  Py.join sep (l1 ++ l2) = (Py.join sep l1 ++ sep ++ Py.join sep l2)%string.
Proof.
  intros H1 H2. induction l1 as [|p l1 IH]; [contradiction|].
  destruct l1 as [|q l1].
  - simpl. destruct l2; [contradiction | reflexivity].
  - specialize (IH ltac:(discriminate)).
    change (Py.join sep ((p :: q :: l1) ++ l2))
      with (p ++ sep ++ Py.join sep ((q :: l1) ++ l2))%string.
    rewrite IH.
    change (Py.join sep (p :: q :: l1)) with (p ++ sep ++ Py.join sep (q :: l1))%string.
    rewrite !append_assoc. reflexivity.
Qed.

Lemma join_empty_iff (parts : list string) :
  Forall (fun p => p <> ""%string) parts ->
  Py.nonempty (Py.join Py.LF parts) = false <-> parts = [].
Proof.
  intros Hall. split.
  - intros Hn. apply ClientProps.join_nonempty_parts; [exact Hall|].
    destruct (Py.join Py.LF parts); [reflexivity | discriminate].
  - intros ->. reflexivity.
Qed.

(** X22.  Flattening a payload made of two payloads with blocks gives the
    two flattened texts joined by one line feed, and just the other text
    when one of them is empty: empty parts leave no blank line and no
    separator at either end. *)
Theorem flatten_of_concatenation (blocks1 blocks2 : list ContentBlock) (err : bool) :
  blocks1 <> [] -> blocks2 <> [] ->
  let flat b := _flatten_tool_result (mkCallToolResult (Some b) err) in
  flat (blocks1 ++ blocks2)
  = if Py.nonempty (flat blocks1)
    then if Py.nonempty (flat blocks2)
         then (flat blocks1 ++ Py.LF ++ flat blocks2)%string
         else flat blocks1
    else flat blocks2.
Proof.
  intros H1 H2 flat. unfold flat.
  assert (H12 : blocks1 ++ blocks2 <> []) by (destruct blocks1; [contradiction | discriminate]).
  rewrite (ClientProps.flatten_blocks (mkCallToolResult (Some blocks1) err) blocks1 eq_refl H1).
  rewrite (ClientProps.flatten_blocks (mkCallToolResult (Some blocks2) err) blocks2 eq_refl H2).
  rewrite (ClientProps.flatten_blocks (mkCallToolResult (Some (blocks1 ++ blocks2)) err)
             (blocks1 ++ blocks2) eq_refl H12).
  rewrite map_app, List.filter_app.
  set (F1 := List.filter Py.nonempty (map block_part blocks1)).
  set (F2 := List.filter Py.nonempty (map block_part blocks2)).
  pose proof (join_empty_iff F1 (ClientProps.filter_nonempty_all _)) as E1.
  pose proof (join_empty_iff F2 (ClientProps.filter_nonempty_all _)) as E2.
  destruct F1 as [|p1 F1].
  - rewrite (proj2 E1 eq_refl). reflexivity.
  - destruct (Py.nonempty (Py.join Py.LF (p1 :: F1))) eqn:N1;
      [|discriminate (proj1 E1 eq_refl)].
    destruct F2 as [|p2 F2].
    + rewrite (proj2 E2 eq_refl), app_nil_r. reflexivity.
    + destruct (Py.nonempty (Py.join Py.LF (p2 :: F2))) eqn:N2;
        [|discriminate (proj1 E2 eq_refl)].
      apply join_app_nonempty; discriminate.
Qed.
End FlattenMore.

Lemma session_starts_with_system_prompt_witness :
  exists ms tr,
    messages (snd (@run_client Script scripted_peers "server.py" ["go"; "quit"]
                     (mkState [] done_script [])))
    = SystemMessage system_prompt :: ms /\
    Forall turn_message ms /\
    trace (snd (@run_client Script scripted_peers "server.py" ["go"; "quit"]
                  (mkState [] done_script [])))
    = PrintTools (map name [mkTool "X" None None None])
        :: PrintLine banner1 :: PrintLine banner2 :: tr /\
    Forall (completion_ok (_convert_mcp_tools_to_groq [mkTool "X" None None None])
              [SystemMessage system_prompt]) tr.
Proof.
  apply (@session_starts_with_system_prompt Script scripted_peers "server.py"
           ["go"; "quit"] done_script done_script done_script
           [mkTool "X" None None None]); reflexivity.
Defined.

Lemma input_after_quit_is_not_read_witness :
  @chat_loop Script scripted_peers [] (["go"] ++ " Quit " :: ["never"; "read"])
    (mkState [SystemMessage system_prompt] done_script [])
  = @chat_loop Script scripted_peers [] (["go"] ++ [" Quit "])
      (mkState [SystemMessage system_prompt] done_script []).
Proof.
  apply (@input_after_quit_is_not_read Script scripted_peers [] ["go"] " Quit "
           ["never"; "read"]).
  vm_compute. reflexivity.
Defined.

Lemma exit_status_meaning_witness :
  (0 = 0 /\ (2 <= length ["client.py"; "server.py"])%nat /\
   exists line, In line ["go"; "EXIT"] /\ is_quit (Py.strip line) = true)
  \/ (0 = 1 /\ (length ["client.py"; "server.py"] < 2)%nat /\
      snd (@main Script scripted_peers ["client.py"; "server.py"] ["go"; "EXIT"] done_script)
      = mkState [] done_script [PrintLine usage]).
Proof.
  apply (@exit_status_meaning Script scripted_peers ["client.py"; "server.py"]
           ["go"; "EXIT"] done_script 0
           (snd (@main Script scripted_peers ["client.py"; "server.py"]
                   ["go"; "EXIT"] done_script))).
  vm_compute. reflexivity.
Defined.

Lemma input_without_quit_ends_in_eof_witness :
  fst (@chat_loop nat eager_peers [] ["first"; " second "]
         (mkState [SystemMessage system_prompt] 0%nat []))
  = inl EOFError /\
  exists ms,
    messages (snd (@chat_loop nat eager_peers [] ["first"; " second "]
                     (mkState [SystemMessage system_prompt] 0%nat [])))
    = [SystemMessage system_prompt] ++ ms /\
    user_texts ms = map Py.strip ["first"; " second "].
Proof.
  apply (@input_without_quit_ends_in_eof nat eager_peers [] ["first"; " second "]
           (mkState [SystemMessage system_prompt] 0%nat [])).
  - exact ClientProps.eager_never_raises.
  - exact ClientProps.eager_arguments_decode.
  - constructor; [vm_compute; reflexivity|].
    constructor; [vm_compute; reflexivity | constructor].
Defined.

Lemma blank_line_is_sent_witness :
  exists tr,
    trace (snd (@chat_loop Script scripted_peers [] ["  "; "quit"]
                  (mkState [SystemMessage system_prompt] done_script [])))
    = [] ++ Prompt "> "
        :: ModelCall ([SystemMessage system_prompt] ++ [UserMessage ""]) [] :: tr.
Proof.
  apply (@blank_line_is_sent Script scripted_peers [] "  " ["quit"]
           (mkState [SystemMessage system_prompt] done_script [])).
  constructor; [do 5 right; left; reflexivity|].
  constructor; [do 5 right; left; reflexivity | constructor].
Defined.

Lemma converted_tools_never_empty_witness :
  exists g,
    _convert_mcp_tools_to_groq [mkTool "list_upcoming" (Some "") (Some []) None] !! 0%nat
    = Some g /\
    gt_description g = "No description"%string /\
    gt_parameters g = [("type"%string, JString "object")].
Proof.
  destruct (proj2 (converted_tools_never_empty
                     [mkTool "list_upcoming" (Some "") (Some []) None])
              0%nat (mkTool "list_upcoming" (Some "") (Some []) None) eq_refl)
    as (g & Hg & Hd & _ & Hp).
  exists g. split; [exact Hg|]. split; [apply Hd; reflexivity|].
  apply Hp; [right; reflexivity | left; reflexivity].
Defined.

Lemma flatten_of_concatenation_witness :
  @_flatten_tool_result sample_render
    (mkCallToolResult
       (Some ([TypedBlock (Some "text") (Some "a"); TypedBlock (Some "text") None]
              ++ [DictBlock (Some "text") (Some "b")])) false)
  = ("a" ++ Py.LF ++ "b")%string.
Proof.
  exact (@flatten_of_concatenation sample_render
           [TypedBlock (Some "text") (Some "a"); TypedBlock (Some "text") None]
           [DictBlock (Some "text") (Some "b")] false
           ltac:(discriminate) ltac:(discriminate)).
Defined.

Section Prints.
Context {W : Type} {P : Peers W}.



End Prints.

End ClientRunsProps.
